(** * Missing-data catalog for gridded climate files: model and properties

    Shallow embedding of [missing_gen.py]: the per-file analysis
    [analyze_netcdf_file] and the aggregation loop of
    [create_daily_catalog].

    Python dictionaries are finite maps ([gmap]), Python sets are finite
    sets ([gset]), Python integers are [Z] and Python floats are IEEE
    binary64 numbers, given by the [spec_float] specification of the
    standard library instantiated at precision 53. *)

From Stdlib Require Import ZArith List Bool SpecFloat.
From stdpp Require Import gmap strings list fin_maps sorting.

Local Open Scope Z_scope.

(** ** Python floats *)

Abbreviation float := spec_float.

Definition prec : Z := 53.
Definition emax : Z := 1024.

(** [float(n)] for a Python integer: the nearest binary64 number. *)
Definition float_of_Z (n : Z) : float := binary_normalize prec emax n 0 false.

Definition fdiv (x y : float) : float := SFdiv prec emax x y.
Definition fmul (x y : float) : float := SFmul prec emax x y.

(** [x > y], [x == y] and [math.isnan]. *)
Definition flt (x y : float) : bool := SFltb x y.
Definition feq (x y : float) : bool := SFeqb x y.
Definition is_nan (x : float) : bool :=
  match x with S754_nan => true | _ => false end.

(** The builtin [max(a, b)] on two arguments keeps [a] unless [b > a]. *)
Definition py_max (a b : float) : float := if flt a b then b else a.

(** Quotient of [a] by [b > 0] rounded to the nearest integer, ties to the
    even one. *)
Definition div_half_even (a b : Z) : Z :=
  let q := a / b in
  let r := a mod b in
  match 2 * r ?= b with
  | Lt => q
  | Gt => q + 1
  | Eq => if Z.even q then q else q + 1
  end.

(** [round(x, 2)]: CPython prints the exact binary value of [x] with two
    decimals (correctly rounded, ties to even) and reads the decimal string
    back as the nearest float.  Zeros, infinities and not-a-number are
    returned unchanged. *)
Definition py_round2 (x : float) : float :=
  match x with
  | S754_finite s m e =>
      let num := Z.pos m * 100 * 2 ^ Z.max e 0 in
      let den := 2 ^ Z.max (- e) 0 in
      match div_half_even num den with
      | Z.pos n => SFdiv prec emax (S754_finite s n 0) (S754_finite false 100 0)
      | _ => S754_zero s
      end
  | _ => x
  end.

(** ** Arrays

    A numpy array is its shape together with its elements in row-major
    order. *)

Record ndarray (A : Type) : Type := mk_ndarray {
  shape : list nat;
  flat : list A
}.
Arguments mk_ndarray {A} _ _.
Arguments shape {A} _.
Arguments flat {A} _.

(** [a.size]: the product of the axes' lengths. *)
Definition size_of_shape (sh : list nat) : nat := foldr Nat.mul 1%nat sh.
Definition np_size {A} (a : ndarray A) : nat := size_of_shape (shape a).

(** [a[i]] on the outermost axis: the [i]-th block of the elements, with
    the remaining axes as shape. *)
Definition np_index {A} (a : ndarray A) (i : nat) : ndarray A :=
  let inner := size_of_shape (tail (shape a)) in
  mk_ndarray (tail (shape a)) (take inner (drop (i * inner) (flat a))).

Definition np_isnan (a : ndarray float) : ndarray bool :=
  mk_ndarray (shape a) (is_nan <$> flat a).

(** [a == v] against a scalar. *)
Definition np_eq_scalar (a : ndarray float) (v : float) : ndarray bool :=
  mk_ndarray (shape a) ((λ x, feq x v) <$> flat a).

(** [m |= k] on boolean arrays of one shape. *)
Definition np_ior (m k : ndarray bool) : ndarray bool :=
  mk_ndarray (shape m) (zip_with orb (flat m) (flat k)).

Definition np_count_nonzero (m : ndarray bool) : nat :=
  length (filter (λ b, b = true) (flat m)).

(** ** Data sources

    What [xr.open_dataset] hands to the analysis: the variables in
    iteration order, each with its attributes and values, and the time
    coordinate [ds.time].  A time value is kept as the calendar date that
    [pd.Timestamp(t).strftime('%Y-%m-%d')] renders, [None] where the
    rendering raises. *)

Record data_var : Type := mk_data_var {
  attrs : gmap string float;
  values : ndarray float
}.

Record dataset : Type := mk_dataset {
  ds_variables : list (string * data_var);
  ds_time : option (list (option string))
}.

(** A path is its parent folder's name and its file name; the content is
    what opening it yields, [None] when opening raises. *)
Record nc_file : Type := mk_nc_file {
  parent_name : string;
  file_name : string;
  content : option dataset
}.

(** ** Per-file results *)

Record day_stats : Type := mk_day_stats {
  missing_count : Z;
  total_points : Z;
  missing_percentage : float
}.

Record file_result : Type := mk_file_result {
  variable : string;
  filename : string;
  stats : gmap string day_stats
}.

(** Exceptions raised inside the [try] block. *)
Inductive py_exception : Type :=
  | OpenError
  | KeyError
  | AttributeError
  | IndexError
  | ValueError.

Inductive outcome (A : Type) : Type :=
  | Returned (a : A)
  | Raised (e : py_exception).
Arguments Returned {A} _.
Arguments Raised {A} _.

(** ** analyze_netcdf_file *)

Definition exclude_vars : list string :=
  ["time"; "lat"; "lon"; "x"; "y"; "Lambert_Conformal"; "time_bnds"; "nbnds"].

(** [[v for v in ds.variables if v not in exclude_vars]] *)
Definition main_vars (ds : dataset) : list string :=
  filter (λ v, v ∉ exclude_vars) (fst <$> ds_variables ds).

(** [ds[name]]: the variable bound to [name]. *)
Definition ds_lookup (ds : dataset) (name : string) : option data_var :=
  (λ ip, snd (snd ip)) <$> list_find (λ p, fst p = name) (ds_variables ds).

(** The fill value or missing value of a variable. *)
Definition fill_value_of (a : gmap string float) : option float :=
  if decide ("_FillValue" ∈ dom a) then a !! "_FillValue"
  else if decide ("missing_value" ∈ dom a) then a !! "missing_value"
  else None.

(** Missing values of one time slice: not-a-number or the fill value. *)
Definition missing_mask (fill_value : option float) (time_slice : ndarray float)
  : ndarray bool :=
  let missing_mask := np_isnan time_slice in
  match fill_value with
  | Some f => np_ior missing_mask (np_eq_scalar time_slice f)
  | None => missing_mask
  end.

(** [ds.time.values[time_idx]] rendered as a date. *)
Definition date_at (ds : dataset) (time_idx : nat) : outcome string :=
  match ds_time ds with
  | None => Raised AttributeError
  | Some ts =>
      match ts !! time_idx with
      | None => Raised IndexError
      | Some None => Raised ValueError
      | Some (Some d) => Returned d
      end
  end.

Definition percentage (missing_count total_points : Z) : float :=
  py_round2 (fmul (fdiv (float_of_Z missing_count) (float_of_Z total_points))
                  (float_of_Z 100)).

(** One iteration of the loop over [range(data.shape[0])]. *)
Definition day_step (ds : dataset) (data : ndarray float)
    (fill_value : option float) (daily_stats : gmap string day_stats)
    (time_idx : nat) : outcome (gmap string day_stats) :=
  let time_slice := np_index data time_idx in
  let mask := missing_mask fill_value time_slice in
  let missing_count := Z.of_nat (np_count_nonzero mask) in
  let total_points := Z.of_nat (np_size time_slice) in
  if 0 <? missing_count then
    match date_at ds time_idx with
    | Raised e => Raised e
    | Returned date =>
        Returned (<[date := mk_day_stats missing_count total_points
                              (percentage missing_count total_points)]>
                  daily_stats)
    end
  else Returned daily_stats.

Fixpoint day_loop (ds : dataset) (data : ndarray float)
    (fill_value : option float) (idxs : list nat)
    (daily_stats : gmap string day_stats) : outcome (gmap string day_stats) :=
  match idxs with
  | [] => Returned daily_stats
  | time_idx :: rest =>
      match day_step ds data fill_value daily_stats time_idx with
      | Raised e => Raised e
      | Returned daily_stats' => day_loop ds data fill_value rest daily_stats'
      end
  end.

(** What follows the choice of the main variable: its values, its fill
    value, the loop over the time axis and the result. *)
Definition analyze_main_var (var_name fname : string) (ds : dataset)
    (v : data_var) : outcome (option file_result) :=
  let data := values v in
  let fill_value := fill_value_of (attrs v) in
  let looped :=
    if decide (length (shape data) = 3%nat)
    then day_loop ds data fill_value (seq 0 (hd 0%nat (shape data))) ∅
    else Returned ∅ in
  match looped with
  | Raised e => Raised e
  | Returned daily_stats =>
      Returned (Some (mk_file_result var_name fname daily_stats))
  end.

(** The body of the [with] block, for an opened data source. *)
Definition analyze_dataset (var_name fname : string) (ds : dataset)
  : outcome (option file_result) :=
  match main_vars ds with
  | [] => Returned None
  | main_var :: _ =>
      match ds_lookup ds main_var with
      | None => Raised KeyError
      | Some v => analyze_main_var var_name fname ds v
      end
  end.

(** The [try] block. *)
Definition analyze_try (file_path : nc_file) : outcome (option file_result) :=
  match content file_path with
  | None => Raised OpenError
  | Some ds => analyze_dataset (parent_name file_path) (file_name file_path) ds
  end.

(** The whole function: any exception is reported and turned into [None]. *)
Definition analyze_netcdf_file (file_path : nc_file) : option file_result :=
  match analyze_try file_path with
  | Raised _ => None
  | Returned r => r
  end.

(** ** The catalog *)

Record day_summary : Type := mk_day_summary {
  total_missing : Z;
  variables_affected : gset string;
  max_percentage : float
}.

Record metadata : Type := mk_metadata {
  created : string;
  base_path : string;
  variables_processed : list string
}.

Record catalog : Type := mk_catalog {
  cat_metadata : metadata;
  variables : gmap string (gmap string day_stats);
  daily_summary : gmap string day_summary
}.

(** The catalog before the first folder is visited. *)
Definition new_catalog (now base : string) : catalog :=
  mk_catalog (mk_metadata now base []) ∅ ∅.

(** The entry a date gets when it is first seen.  The integer [0] of
    [max_percentage] is the float zero: Python compares and orders both
    alike. *)
Definition new_summary : day_summary := mk_day_summary 0 ∅ (S754_zero false).

#[global] Instance day_summary_inhabited : Inhabited day_summary :=
  populate new_summary.

(** [d.update(other)]: the keys of [other] overwrite. *)
Definition dict_update {V} (d other : gmap string V) : gmap string V := other ∪ d.

(** The body of the loop over [daily_stats.items()]. *)
Definition summary_step (var_name date : string) (st : day_stats)
    (summ : gmap string day_summary) : gmap string day_summary :=
  let summ1 :=
    if decide (date ∉ dom summ) then <[date := new_summary]> summ else summ in
  let summary := summ1 !!! date in
  <[date := mk_day_summary
              (total_missing summary + missing_count st)
              ({[var_name]} ∪ variables_affected summary)
              (py_max (max_percentage summary) (missing_percentage st))]> summ1.

Definition update_daily_summary (var_name : string)
    (daily_stats : gmap string day_stats) (summ : gmap string day_summary)
  : gmap string day_summary :=
  map_fold (summary_step var_name) summ daily_stats.

(** The body of the loop over [results]: one result folded into the
    catalog.  [catalog["variables"][var_name]] raises [KeyError] for a
    variable without a mapping. *)
Definition fold_result (c : catalog) (result : option file_result)
  : outcome catalog :=
  match result with
  | None => Returned c
  | Some r =>
      let var_name := variable r in
      let daily_stats := stats r in
      match variables c !! var_name with
      | None => Raised KeyError
      | Some m =>
          Returned
            (mk_catalog (cat_metadata c)
               (<[var_name := dict_update m daily_stats]> (variables c))
               (update_daily_summary var_name daily_stats (daily_summary c)))
      end
  end.

(** The loop over [results]. *)
Fixpoint aggregate (c : catalog) (results : list (option file_result))
  : outcome catalog :=
  match results with
  | [] => Returned c
  | result :: rest =>
      match fold_result c result with
      | Raised e => Raised e
      | Returned c' => aggregate c' rest
      end
  end.

(** A folder that exists is recorded and given an empty mapping. *)
Definition register_folder (var_folder : string) (c : catalog) : catalog :=
  let md := cat_metadata c in
  mk_catalog
    (mk_metadata (created md) (base_path md)
       (variables_processed md ++ [var_folder]))
    (<[var_folder := ∅]> (variables c))
    (daily_summary c).

(** The directory tree under the base path: for a folder name, [None] when
    the folder does not exist, else its [*.nc] files, each with what opening
    it yields. *)
Definition listing : Type := string → option (list (string * option dataset)).

Definition var_folders : list string :=
  ["air"; "hgt"; "omega"; "shum"; "tke"; "uwnd"; "vwnd"].

(** [executor.map] returns the results in the order of [nc_files]. *)
Definition folder_results (var_folder : string)
    (files : list (string * option dataset)) : list (option file_result) :=
  (λ f, analyze_netcdf_file (mk_nc_file var_folder (fst f) (snd f))) <$> files.

(** One iteration of the loop over the variable folders. *)
Definition process_folder (fs : listing) (c : catalog) (var_folder : string)
  : outcome catalog :=
  match fs var_folder with
  | None => Returned c
  | Some files =>
      aggregate (register_folder var_folder c) (folder_results var_folder files)
  end.

Fixpoint process_folders (fs : listing) (c : catalog) (folders : list string)
  : outcome catalog :=
  match folders with
  | [] => Returned c
  | var_folder :: rest =>
      match process_folder fs c var_folder with
      | Raised e => Raised e
      | Returned c' => process_folders fs c' rest
      end
  end.

(** The catalog that is returned and written out: every set has become a
    list. *)
Record day_summary_out : Type := mk_day_summary_out {
  out_total_missing : Z;
  out_variables_affected : list string;
  out_max_percentage : float
}.

Record catalog_out : Type := mk_catalog_out {
  out_metadata : metadata;
  out_variables : gmap string (gmap string day_stats);
  out_daily_summary : gmap string day_summary_out
}.

(** [list(s)] enumerates a set in its iteration order, which Python leaves
    unspecified: every element once, in some order. *)
Definition set_iteration (to_list : gset string → list string) : Prop :=
  ∀ s, to_list s ≡ₚ elements s.

(** The last loop: sets to lists. *)
Definition finalize (to_list : gset string → list string) (c : catalog)
  : catalog_out :=
  mk_catalog_out (cat_metadata c) (variables c)
    ((λ s, mk_day_summary_out (total_missing s)
             (to_list (variables_affected s)) (max_percentage s))
       <$> daily_summary c).

Definition create_daily_catalog (to_list : gset string → list string)
    (now base : string) (fs : listing) : outcome catalog_out :=
  match process_folders fs (new_catalog now base) var_folders with
  | Raised e => Raised e
  | Returned c => Returned (finalize to_list c)
  end.

(** ** Notions used by the properties *)

(** A running maximum above the initial zero: the zero itself or a
    positive number. *)
Definition running_max (a : float) : Prop :=
  a = S754_zero false ∨ flt (S754_zero false) a = true.

(** What one [DayStats] record of variable [var_name] does to the summary
    of its date. *)
Definition add_stats (var_name : string) (st : day_stats) (s : day_summary)
  : day_summary :=
  mk_day_summary (total_missing s + missing_count st)
    ({[var_name]} ∪ variables_affected s)
    (py_max (max_percentage s) (missing_percentage st)).

(** Every summary of the catalog holds a running maximum. *)
Definition summaries_ok (summ : gmap string day_summary) : Prop :=
  ∀ d s, summ !! d = Some s → running_max (max_percentage s).

(** The variable whose values are analysed: [ds[main_vars[0]]]. *)
Definition primary_variable (ds : dataset) : option data_var :=
  match main_vars ds with
  | [] => None
  | main_var :: _ => ds_lookup ds main_var
  end.

(** The record the loop writes for the time slice [time_idx]. *)
Definition slice_missing (data : ndarray float) (fill_value : option float)
    (time_idx : nat) : Z :=
  Z.of_nat (np_count_nonzero (missing_mask fill_value (np_index data time_idx))).

Definition slice_points (data : ndarray float) (time_idx : nat) : Z :=
  Z.of_nat (np_size (np_index data time_idx)).

Definition slice_stats (data : ndarray float) (fill_value : option float)
    (time_idx : nat) : day_stats :=
  mk_day_stats (slice_missing data fill_value time_idx)
    (slice_points data time_idx)
    (percentage (slice_missing data fill_value time_idx)
       (slice_points data time_idx)).

(** The file of the three-day scenario: a 2 x 2 grid, complete on the first
    day, one not-a-number on the second, the fill value -999 everywhere on
    the third. *)
Definition scenario_grid : ndarray float :=
  mk_ndarray [3; 2; 2]%nat
    [float_of_Z 1; float_of_Z 2; float_of_Z 3; float_of_Z 4;
     float_of_Z 1; S754_nan; float_of_Z 3; float_of_Z 4;
     float_of_Z (-999); float_of_Z (-999); float_of_Z (-999);
     float_of_Z (-999)].

Definition scenario_dataset : dataset :=
  mk_dataset
    [("time", mk_data_var ∅ (mk_ndarray [3%nat] []));
     ("air", mk_data_var {["_FillValue" := float_of_Z (-999)]} scenario_grid)]
    (Some [Some "2020-01-01"; Some "2020-01-02"; Some "2020-01-03"]).

Definition scenario_file : nc_file :=
  mk_nc_file "air" "air.2020.nc" (Some scenario_dataset).

(** A file whose main variable has two axes only. *)
Definition flat_file : nc_file :=
  mk_nc_file "hgt" "hgt.sfc.nc"
    (Some (mk_dataset
             [("lat", mk_data_var ∅ (mk_ndarray [2%nat] [float_of_Z 1; float_of_Z 2]));
              ("hgt", mk_data_var ∅
                        (mk_ndarray [1; 2]%nat [S754_nan; float_of_Z 7]))]
             None)).

(** The record stored for a variable and a date. *)
Definition entry (c : catalog) (v d : string) : option day_stats :=
  variables c !! v ≫= λ m, m !! d.

(** The records that the results write at the key (variable, date), in the
    order in which the results are applied. *)
Definition writes (v d : string) (result : option file_result)
  : option day_stats :=
  result ≫= λ r, if decide (variable r = v) then stats r !! d else None.

Definition writers (v d : string) (results : list (option file_result))
  : list day_stats :=
  omap (writes v d) results.

(** No key (variable, date) is written by two results. *)
Definition collision_free (results : list (option file_result)) : Prop :=
  ∀ v d, (length (writers v d results) ≤ 1)%nat.

(** Two catalogs that differ at most in the records stored under the
    variables. *)
Definition same_but_entries (c1 c2 : catalog) : Prop :=
  cat_metadata c1 = cat_metadata c2 ∧
  dom (variables c1) = dom (variables c2) ∧
  daily_summary c1 = daily_summary c2.

Definition outcome_rel {A} (R : A → A → Prop) (o1 o2 : outcome A) : Prop :=
  match o1, o2 with
  | Returned a, Returned b => R a b
  | Raised e1, Raised e2 => e1 = e2
  | _, _ => False
  end.

Definition outcome_bind {A B} (o : outcome A) (k : A → outcome B) : outcome B :=
  match o with
  | Returned a => k a
  | Raised e => Raised e
  end.

(** ** Sample results and catalogs *)

Definition sample_catalog : catalog :=
  register_folder "hgt" (register_folder "air" (new_catalog "2024-01-01T00:00:00" "/data")).

Definition air_first : file_result :=
  mk_file_result "air" "air.a.nc"
    {["2020-01-02" := mk_day_stats 1 4 (float_of_Z 25)]}.

Definition air_second : file_result :=
  mk_file_result "air" "air.b.nc"
    {["2020-01-02" := mk_day_stats 2 4 (float_of_Z 50)]}.

Definition air_other : file_result :=
  mk_file_result "air" "air.c.nc"
    {["2020-02-01" := mk_day_stats 4 4 (float_of_Z 100)]}.

Definition hgt_first : file_result :=
  mk_file_result "hgt" "hgt.a.nc"
    {["2020-01-02" := mk_day_stats 3 4 (float_of_Z 75)]}.

(** Names in non-decreasing order. *)
Fixpoint names_sorted (l : list string) : bool :=
  match l with
  | a :: (b :: _) as t => String.leb a b && names_sorted t
  | _ => true
  end.

(** One of the orders in which a set may be iterated: descending. *)
Definition descending (s : gset string) : list string :=
  reverse (merge_sort (λ a b : string, String.leb a b) (elements s)).

(** A base path with the folders [air] and [hgt], one file each. *)
Definition two_folders : listing :=
  λ var_folder,
    if decide (var_folder = "air") then Some [("air.2020.nc", Some scenario_dataset)]
    else if decide (var_folder = "hgt") then Some [("hgt.2020.nc", Some scenario_dataset)]
    else None.

(** The records of one date, by variable, and the sum of their counts. *)
Definition date_column (vars : gmap string (gmap string day_stats))
    (d : string) : gmap string day_stats :=
  omap (λ m : gmap string day_stats, m !! d) vars.

Definition date_total (vars : gmap string (gmap string day_stats))
    (d : string) : Z :=
  map_fold (λ _ st acc, acc + missing_count st) 0 (date_column vars d).

(** [p] is the largest percentage among the records [col]: some record
    has it and none exceeds it. *)
Definition true_max (p : float) (col : gmap string day_stats) : Prop :=
  (∃ v st, col !! v = Some st ∧ feq p (missing_percentage st) = true) ∧
  ∀ v st, col !! v = Some st → flt p (missing_percentage st) = false.

(** The daily summary agrees with the records stored under the variables:
    a date without a summary has no record, and the summary of a date
    holds the sum of the counts, the variables and the largest percentage
    of its records. *)
Definition summary_consistent (c : catalog) : Prop :=
  ∀ d, match daily_summary c !! d with
       | None => date_column (variables c) d = ∅
       | Some s =>
           total_missing s = date_total (variables c) d ∧
           variables_affected s = dom (date_column (variables c) d) ∧
           true_max (max_percentage s) (date_column (variables c) d)
       end.

(** The percentages of the results are not below zero. *)
Definition percentages_nonneg (results : list (option file_result)) : Prop :=
  ∀ r d st, Some r ∈ results → stats r !! d = Some st →
    SFleb (S754_zero false) (missing_percentage st) = true.

(** No result writes a key that the catalog already holds. *)
Definition writes_fresh (c : catalog) (results : list (option file_result))
  : Prop :=
  ∀ v d, writers v d results ≠ [] → entry c v d = None.

(** ** Notions used by the further properties *)

#[global] Instance py_exception_eq_dec : EqDecision py_exception.
Proof. solve_decision. Defined.

#[global] Instance outcome_eq_dec {A} `{EqDecision A} : EqDecision (outcome A).
Proof. solve_decision. Defined.

(** The time slice [time_idx] writes a record for [date]: it has a
    missing point and its time value renders as [date]. *)
Definition slice_writes (ds : dataset) (data : ndarray float)
    (fill_value : option float) (date : string) (time_idx : nat) : bool :=
  bool_decide (date_at ds time_idx = Returned date) &&
  (0 <? slice_missing data fill_value time_idx).

(** The time slice [time_idx] has a missing point and no date. *)
Definition slice_fails (ds : dataset) (data : ndarray float)
    (fill_value : option float) (time_idx : nat) : Prop :=
  0 < slice_missing data fill_value time_idx ∧
  ∀ date, date_at ds time_idx ≠ Returned date.

(** The listing without the files whose analysis yields the null
    result. *)
Definition drop_null (fs : listing) : listing :=
  λ var_folder,
    filter (λ f, is_Some (analyze_netcdf_file
                            (mk_nc_file var_folder (fst f) (snd f))))
      <$> fs var_folder.

(** The records that the results hold for a date, each with the variable
    of its result, in the order in which the results are applied. *)
Definition date_writes (d : string) (results : list (option file_result))
  : list (string * day_stats) :=
  omap (λ o : option file_result,
          o ≫= λ r, (λ st, (variable r, st)) <$> stats r !! d) results.

Definition sum_counts (ws : list (string * day_stats)) : Z :=
  foldr (λ w acc, missing_count (snd w) + acc) 0 ws.

(** The affected variables of a date are the variables with a record for
    it, and only a date with a record has a summary. *)
Definition affected_consistent (c : catalog) : Prop :=
  ∀ d, match daily_summary c !! d with
       | None => ∀ v, entry c v d = None
       | Some s =>
           variables_affected s ≠ ∅ ∧
           ∀ v, v ∈ variables_affected s ↔ is_Some (entry c v d)
       end.

(** A result with two dates, and a three-day file whose time coordinate
    has two values only. *)
Definition air_two_dates : file_result :=
  mk_file_result "air" "air.d.nc"
    (<["2020-03-01" := mk_day_stats 1 4 (float_of_Z 25)]>
       (<["2020-03-02" := mk_day_stats 2 4 (float_of_Z 50)]> ∅)).

Definition short_time_file : nc_file :=
  mk_nc_file "air" "air.short.nc"
    (Some (mk_dataset (ds_variables scenario_dataset)
             (Some [Some "2020-01-01"; Some "2020-01-02"]))).

(** A float that is neither negative nor not-a-number. *)
Definition nonneg_float (x : float) : Prop :=
  match x with
  | S754_zero false | S754_infinity false | S754_finite false _ _ => True
  | _ => False
  end.

(** The counts of the results stay below 2^53, where every integer is a
    float. *)
Definition counts_bounded (results : list (option file_result)) : Prop :=
  ∀ r d st, Some r ∈ results → stats r !! d = Some st →
    missing_count st < 2 ^ 53.

(** Two listings with the same folders, the files of each folder in
    another order. *)
Definition listing_perm (fs fs' : listing) : Prop :=
  ∀ var_folder,
    match fs var_folder, fs' var_folder with
    | Some files, Some files' => files ≡ₚ files'
    | None, None => True
    | _, _ => False
    end.

(** The listing [two_folders] with a second file in [air], and the same
    with the two files of [air] in the other order. *)
Definition two_files : listing :=
  λ var_folder,
    if decide (var_folder = "air")
    then Some [("air.2020.nc", Some scenario_dataset); ("air.bad.nc", None)]
    else two_folders var_folder.

Definition two_files_swapped : listing :=
  λ var_folder,
    if decide (var_folder = "air")
    then Some [("air.bad.nc", None); ("air.2020.nc", Some scenario_dataset)]
    else two_folders var_folder.

(** The result [r] has been folded into the catalog at some earlier
    point: its variable has a mapping, and every date of [r] has a summary
    that lists the variable and whose maximum is not below the percentage
    of [r] for that date. *)
Definition folded_in (r : file_result) (c : catalog) : Prop :=
  is_Some (variables c !! variable r) ∧
  ∀ d st, stats r !! d = Some st →
    ∃ s, daily_summary c !! d = Some s ∧
      variable r ∈ variables_affected s ∧
      flt (max_percentage s) (missing_percentage st) = false.

(** One step of the run on the catalog: the loop body folds one result, or
    the folder loop registers one folder. *)
Inductive catalog_step : catalog → catalog → Prop :=
  | step_fold c x c' : fold_result c x = Returned c' → catalog_step c c'
  | step_register c var_folder :
      catalog_step c (register_folder var_folder c).

(** ** Rounded to 2 decimal places

    The wording of the specification, stated without the code's
    [py_round2]: the number of hundredths is the integer nearest to the
    value times 100, the even one when two are equally near, and the
    result is that many hundredths as a binary64 number. *)

(** [n] is the integer nearest to the fraction [num / den], the even one
    of the two on a tie. *)
Definition nearest_integer_ties_even (num den n : Z) : Prop :=
  Z.abs (2 * (num - n * den)) ≤ den ∧
  (Z.abs (2 * (num - n * den)) = den → Z.even n = true).

(** [n / 100] as a binary64 number: the quotient of the integers [n] and
    [100], rounded once by the IEEE division; the sign is kept. *)
Definition hundredths (s : bool) (n : Z) : float :=
  match n with
  | Z.pos k => SFdiv prec emax (S754_finite s k 0) (S754_finite false 100 0)
  | _ => S754_zero s
  end.

(** [p] is [x] rounded to 2 decimal places.  The finite [x] has the
    magnitude [m * 2 ^ e], so that its hundredfold is the fraction
    [m * 100 * 2 ^ max e 0 / 2 ^ max (- e) 0]; zeros, infinities and
    not-a-number stay as they are. *)
Definition rounded_to_2_decimals (x p : float) : Prop :=
  match x with
  | S754_finite s m e =>
      ∃ n : Z,
        nearest_integer_ties_even
          (Z.pos m * 100 * 2 ^ Z.max e 0) (2 ^ Z.max (- e) 0) n ∧
        p = hundredths s n
  | _ => p = x
  end.

(** [p] is a normal binary64 number at most half a unit in the last place
    away from the fraction [a / b], with an even mantissa when the
    distance is exactly half a unit. *)
Definition within_half_ulp (a b : Z) (p : float) : bool :=
  match p with
  | S754_finite false mp ep =>
      let unit := b * 2 ^ Z.max ep 0 in
      let err := Z.abs (Z.pos mp * unit - a * 2 ^ Z.max (- ep) 0) in
      (2 ^ 52 <=? Z.pos mp) && (Z.pos mp <? 2 ^ 53) &&
      (-1074 <=? ep) && (ep <=? 971) &&
      (2 * err <=? unit) &&
      (negb (2 * err =? unit) || Z.even (Z.pos mp))
  | _ => false
  end.

(** A file where the rounding shows: a 1 x 3 grid on two days, one
    not-a-number on the first day, the missing value -999 twice on the
    second. *)
Definition thirds_file : nc_file :=
  mk_nc_file "shum" "shum.2021.nc"
    (Some (mk_dataset
             [("time", mk_data_var ∅ (mk_ndarray [2%nat] []));
              ("shum",
               mk_data_var {["missing_value" := float_of_Z (-999)]}
                 (mk_ndarray [2; 1; 3]%nat
                    [S754_nan; float_of_Z 1; float_of_Z 2;
                     float_of_Z (-999); float_of_Z (-999); float_of_Z 3]))]
             (Some [Some "2021-03-01"; Some "2021-03-02"]))).

(** * Properties *)

(** ** The order on floats *)

Lemma flt_irrefl a : flt a a = false.
Proof.
  unfold flt, SFltb.
  destruct a as [[]|[]| |[] m e]; simpl; try reflexivity;
    rewrite Z.compare_refl, Pos.compare_cont_refl; reflexivity.
Qed.

Lemma lex_lt_spec e1 m1 e2 m2 :
  match e1 ?= e2 with
  | Lt => Lt
  | Gt => Gt
  | Eq => Pos.compare_cont Eq m1 m2
  end = Lt ↔ e1 < e2 ∨ (e1 = e2 ∧ (m1 < m2)%positive).
Proof.
  change (Pos.compare_cont Eq m1 m2) with (m1 ?= m2)%positive.
  destruct (Z.compare_spec e1 e2); [|split; [auto | reflexivity] |].
  - rewrite Pos.compare_lt_iff. split; [auto | intros [?|[_ ?]]; [lia|done]].
  - split; [done | intros [?|[? _]]; lia].
Qed.

Lemma lex_gt_spec e1 m1 e2 m2 :
  match e1 ?= e2 with
  | Lt => Gt
  | Gt => Lt
  | Eq => CompOpp (Pos.compare_cont Eq m1 m2)
  end = Lt ↔ e2 < e1 ∨ (e1 = e2 ∧ (m2 < m1)%positive).
Proof.
  change (Pos.compare_cont Eq m1 m2) with (m1 ?= m2)%positive.
  destruct (Z.compare_spec e1 e2); [| |split; [auto | reflexivity]].
  - rewrite <- Pos.compare_antisym, Pos.compare_lt_iff.
    split; [auto | intros [?|[_ ?]]; [lia|done]].
  - split; [done | intros [?|[? _]]; lia].
Qed.

Lemma flt_finite s1 m1 e1 s2 m2 e2 :
  flt (S754_finite s1 m1 e1) (S754_finite s2 m2 e2) = true ↔
  match s1, s2 with
  | true, false => True
  | false, true => False
  | false, false => e1 < e2 ∨ (e1 = e2 ∧ (m1 < m2)%positive)
  | true, true => e2 < e1 ∨ (e1 = e2 ∧ (m2 < m1)%positive)
  end.
Proof.
  unfold flt, SFltb, SFcompare. destruct s1, s2; try done.
  - rewrite <- lex_gt_spec.
    destruct (e1 ?= e2); [destruct (Pos.compare_cont Eq m1 m2)| |]; simpl; split; congruence.
  - rewrite <- lex_lt_spec.
    destruct (e1 ?= e2); [destruct (Pos.compare_cont Eq m1 m2)| |]; simpl; split; congruence.
Qed.

Lemma flt_trans a b c : flt a b = true → flt b c = true → flt a c = true.
Proof.
  destruct a as [[]|[]| |s1 m1 e1], b as [[]|[]| |s2 m2 e2],
    c as [[]|[]| |s3 m3 e3];
    try (destruct s1); try (destruct s2); try (destruct s3);
    try (vm_compute; congruence);
    rewrite !flt_finite; try done; lia.
Qed.

Lemma flt_asym a b : flt a b = true → flt b a = false.
Proof.
  intros Hab. destruct (flt b a) eqn:Hba; [|done].
  pose proof (flt_trans _ _ _ Hab Hba) as H. by rewrite flt_irrefl in H.
Qed.

(** ** The builtin max as a running maximum *)

Lemma running_max_zero : running_max (S754_zero false).
Proof. by left. Qed.

Lemma running_max_py_max a b : running_max a → running_max (py_max a b).
Proof.
  unfold py_max. intros Ha. destruct (flt a b) eqn:Hab; [|done].
  right. destruct Ha as [->|Ha]; [done|]. exact (flt_trans _ _ _ Ha Hab).
Qed.

Lemma flt_zero_pos b :
  flt (S754_zero false) b = true →
  b = S754_infinity false ∨ ∃ m e, b = S754_finite false m e.
Proof. destruct b as [[]|[]| |[] m e]; try (vm_compute; congruence); eauto. Qed.

Lemma flt_pos_incomparable b c :
  flt (S754_zero false) b = true → flt (S754_zero false) c = true →
  flt b c = false → flt c b = false → b = c.
Proof.
  intros [->|(m1&e1&->)]%flt_zero_pos [->|(m2&e2&->)]%flt_zero_pos;
    try (vm_compute; congruence).
  intros H1 H2. apply not_true_iff_false in H1, H2.
  rewrite flt_finite in H1, H2.
  assert (e1 = e2) as -> by lia. assert (m1 = m2) as -> by lia. done.
Qed.

Lemma py_max_right_comm a b c :
  running_max a → py_max (py_max a b) c = py_max (py_max a c) b.
Proof.
  intros Ha. unfold py_max.
  destruct (flt a b) eqn:Hab, (flt a c) eqn:Hac; rewrite ?Hab, ?Hac; try done.
  - assert (flt (S754_zero false) b = true) as Hb.
    { destruct Ha as [->|Ha]; [done | exact (flt_trans _ _ _ Ha Hab)]. }
    assert (flt (S754_zero false) c = true) as Hc.
    { destruct Ha as [->|Ha]; [done | exact (flt_trans _ _ _ Ha Hac)]. }
    destruct (flt b c) eqn:Hbc.
    + by rewrite (flt_asym _ _ Hbc).
    + destruct (flt c b) eqn:Hcb; [done|]. by apply flt_pos_incomparable.
  - destruct (flt b c) eqn:Hbc; [|done].
    by rewrite (flt_trans _ _ _ Hab Hbc) in Hac.
  - destruct (flt c b) eqn:Hcb; [|done].
    by rewrite (flt_trans _ _ _ Hac Hcb) in Hab.
Qed.

Lemma py_max_idemp a b : py_max (py_max a b) b = py_max a b.
Proof.
  unfold py_max. destruct (flt a b) eqn:Hab; [|by rewrite Hab].
  by rewrite flt_irrefl.
Qed.

(** ** The summary update, date by date *)

Lemma summary_step_lookup var_name date st summ d :
  summary_step var_name date st summ !! d =
  if decide (date = d)
  then Some (add_stats var_name st (default new_summary (summ !! date)))
  else summ !! d.
Proof.
  unfold summary_step. destruct (decide (date = d)) as [<-|Hd].
  - rewrite lookup_insert_eq. f_equal. unfold add_stats.
    case_decide as Hin.
    + rewrite lookup_total_insert_eq. apply not_elem_of_dom in Hin.
      by rewrite Hin.
    + apply elem_of_dom in Hin as [s Hs].
      by rewrite (lookup_total_correct _ _ _ Hs), Hs.
  - rewrite lookup_insert_ne by done. case_decide; [|done].
    by rewrite lookup_insert_ne.
Qed.

Lemma update_daily_summary_lookup var_name daily_stats summ d :
  update_daily_summary var_name daily_stats summ !! d =
  match daily_stats !! d with
  | Some st => Some (add_stats var_name st (default new_summary (summ !! d)))
  | None => summ !! d
  end.
Proof.
  unfold update_daily_summary. revert d.
  apply (map_fold_weak_ind (λ r m, ∀ d, r !! d =
    match m !! d with
    | Some st => Some (add_stats var_name st (default new_summary (summ !! d)))
    | None => summ !! d
    end)).
  - intros d. by rewrite lookup_empty.
  - intros date st m r Hfresh IH d. rewrite summary_step_lookup.
    destruct (decide (date = d)) as [<-|Hd].
    + rewrite lookup_insert_eq, IH, Hfresh. done.
    + rewrite lookup_insert_ne by done. apply IH.
Qed.

(** ** The missingness mask *)

Lemma zip_with_orb_fmap {A} (f g : A → bool) (l : list A) :
  zip_with orb (f <$> l) (g <$> l) = (λ x, f x || g x) <$> l.
Proof. induction l as [|x l IH]; [done | simpl; f_equal; exact IH]. Qed.

Lemma feq_exact x f : feq x f = true ↔ SFcompare x f = Some Eq.
Proof.
  unfold feq, SFeqb. destruct (SFcompare x f) as [[]|]; split; congruence.
Qed.

Lemma is_nan_true x : is_nan x = true ↔ x = S754_nan.
Proof. destruct x; split; simpl; congruence. Qed.

(** C5. The mask of a slice has the shape of the slice and is true exactly
    at the positions that hold not-a-number or, with a fill value [f], a
    value equal to [f] under the comparison [==] of floats, with no
    tolerance; without a fill value only not-a-number is flagged. *)
Theorem missing_mask_exact (fill_value : option float) (S : ndarray float) :
  shape (missing_mask fill_value S) = shape S ∧
  flat (missing_mask fill_value S) =
    (λ x, is_nan x || from_option (feq x) false fill_value) <$> flat S ∧
  flat (missing_mask None S) = is_nan <$> flat S ∧
  (∀ i, flat (missing_mask fill_value S) !! i = Some true ↔
        ∃ x, flat S !! i = Some x ∧
             (x = S754_nan ∨
              ∃ f, fill_value = Some f ∧ SFcompare x f = Some Eq)) ∧
  (∀ i, flat (missing_mask None S) !! i = Some true ↔
        flat S !! i = Some S754_nan).
Proof.
  assert (flat (missing_mask fill_value S) =
    (λ x, is_nan x || from_option (feq x) false fill_value) <$> flat S) as Hflat.
  { destruct fill_value as [f|]; unfold missing_mask, np_ior, np_isnan,
      np_eq_scalar; cbn [flat from_option].
    - apply zip_with_orb_fmap.
    - apply list_fmap_ext. intros _ x _. by rewrite orb_false_r. }
  split_and!.
  - by destruct fill_value.
  - done.
  - done.
  - intros i. rewrite Hflat, list_lookup_fmap. split.
    + destruct (flat S !! i) as [x|]; [|done]. simpl. intros [= Hx].
      exists x. split; [done|]. apply orb_true_iff in Hx as [Hx|Hx].
      * left. by apply is_nan_true.
      * right. destruct fill_value as [f|]; [|done]. exists f.
        split; [done|]. by apply feq_exact.
    + intros (x & -> & Hx). simpl. f_equal. apply orb_true_iff.
      destruct Hx as [->|(f & -> & Hx)]; [by left|]. right. by apply feq_exact.
  - intros i. simpl. rewrite list_lookup_fmap.
    destruct (flat S !! i) as [x|]; simpl; [|split; congruence].
    split.
    + intros [= Hx]. f_equal. by apply is_nan_true.
    + by intros [= ->].
Qed.

(** ** The fill value *)

(** C8. The fill value of a variable is its [_FillValue] attribute when it
    has one, else its [missing_value] attribute when it has one, else
    none; the analysis of the main variable runs with that value. *)
Theorem fill_value_precedence (a : gmap string float) :
  (∀ f, a !! "_FillValue" = Some f → fill_value_of a = Some f) ∧
  (a !! "_FillValue" = None →
     ∀ f, a !! "missing_value" = Some f → fill_value_of a = Some f) ∧
  (a !! "_FillValue" = None → a !! "missing_value" = None →
     fill_value_of a = None) ∧
  (∀ var_name fname ds data,
     analyze_main_var var_name fname ds (mk_data_var a data) =
     match
       (if decide (length (shape data) = 3%nat)
        then day_loop ds data
               (match a !! "_FillValue" with
                | Some f => Some f
                | None => a !! "missing_value"
                end)
               (seq 0 (hd 0%nat (shape data))) ∅
        else Returned ∅)
     with
     | Raised e => Raised e
     | Returned daily_stats =>
         Returned (Some (mk_file_result var_name fname daily_stats))
     end).
Proof.
  assert (fill_value_of a =
          match a !! "_FillValue" with
          | Some f => Some f
          | None => a !! "missing_value"
          end) as Heq.
  { unfold fill_value_of. case_decide as H1.
    - apply elem_of_dom in H1 as [f Hf]. by rewrite Hf.
    - apply not_elem_of_dom in H1. rewrite H1. case_decide as H2; [done|].
      apply not_elem_of_dom in H2. by rewrite H2. }
  split_and!.
  - intros f Hf. by rewrite Heq, Hf.
  - intros H1 f Hf. by rewrite Heq, H1.
  - intros H1 H2. by rewrite Heq, H1.
  - intros. unfold analyze_main_var. cbn [attrs values]. by rewrite Heq.
Qed.

(** ** The choice of the main variable *)

Lemma main_vars_nil ds :
  main_vars ds = [] ↔ Forall (λ p, fst p ∈ exclude_vars) (ds_variables ds).
Proof.
  unfold main_vars. induction (ds_variables ds) as [|[n v] l IH]; simpl.
  - split; [constructor | done].
  - rewrite filter_cons. case_decide as Hn; simpl in Hn.
    + split; [done|]. intros [? _]%Forall_cons. done.
    + rewrite IH, Forall_cons. tauto.
Qed.

Lemma ds_lookup_first pre name v post t :
  name ∉ fst <$> pre →
  ds_lookup (mk_dataset (pre ++ (name, v) :: post) t) name = Some v.
Proof.
  unfold ds_lookup. cbn [ds_variables]. induction pre as [|[n w] pre IH]; intros Hpre.
  - simpl. by rewrite decide_True.
  - rewrite fmap_cons, not_elem_of_cons in Hpre. destruct Hpre as [Hn Hpre].
    simpl in Hn. simpl. rewrite decide_False by done.
    specialize (IH Hpre). simpl in IH.
    destruct (list_find _ (pre ++ _)) as [[i p]|]; simpl in *; congruence.
Qed.

Lemma main_vars_first pre name v post t :
  Forall (λ p, fst p ∈ exclude_vars) pre → name ∉ exclude_vars →
  let ds := mk_dataset (pre ++ (name, v) :: post) t in
  main_vars ds = name :: filter (λ v, v ∉ exclude_vars) (fst <$> post) ∧
  primary_variable ds = Some v.
Proof.
  intros Hpre Hname ds.
  assert (main_vars ds = name :: filter (λ v, v ∉ exclude_vars) (fst <$> post)) as Hm.
  { unfold main_vars, ds. cbn [ds_variables].
    rewrite fmap_app, filter_app, fmap_cons, filter_cons_True by done.
    replace (filter _ (fst <$> pre)) with (@nil string); [done|].
    symmetry. clear -Hpre. induction Hpre as [|[n w] l Hn _ IH]; [done|].
    rewrite fmap_cons, filter_cons_False; [done|]. simpl in *. by intros []. }
  split; [done|]. unfold primary_variable. rewrite Hm.
  apply ds_lookup_first. intros (p & -> & Hp)%list_elem_of_fmap.
  rewrite Forall_forall in Hpre. by apply Hname, Hpre.
Qed.

Lemma first_not_excluded (l : list (string * data_var)) :
  ¬ Forall (λ p, fst p ∈ exclude_vars) l →
  ∃ pre name v post, l = pre ++ (name, v) :: post ∧
    Forall (λ p, fst p ∈ exclude_vars) pre ∧ name ∉ exclude_vars.
Proof.
  induction l as [|[n w] l IH]; intros Hl.
  - destruct Hl. constructor.
  - destruct (decide (n ∈ exclude_vars)) as [Hn|Hn].
    + destruct IH as (pre & name & v & post & -> & Hpre & Hname).
      { intros Hall. apply Hl. by constructor. }
      exists ((n, w) :: pre), name, v, post. split_and!; [done| |done].
      by constructor.
    + exists [], n, w, l. split_and!; [done|constructor|done].
Qed.

(** C7. The analysis of a file never lets an exception out: whatever is
    raised while the file is opened or read ends in the null result; a
    file all of whose variable names are excluded yields the null result;
    otherwise the first name that is not excluded, in the order of the
    data source, is the main variable and its values are analysed. *)
Theorem extract_error_boundary (f : nc_file) :
  (∀ e, analyze_try f = Raised e → analyze_netcdf_file f = None) ∧
  (content f = None → analyze_netcdf_file f = None) ∧
  (∀ ds, content f = Some ds →
     Forall (λ p, fst p ∈ exclude_vars) (ds_variables ds) →
     analyze_netcdf_file f = None) ∧
  (∀ ds, content f = Some ds →
     ¬ Forall (λ p, fst p ∈ exclude_vars) (ds_variables ds) →
     ∃ pre name v post,
       ds_variables ds = pre ++ (name, v) :: post ∧
       Forall (λ p, fst p ∈ exclude_vars) pre ∧
       (name ∉ exclude_vars) ∧
       head (main_vars ds) = Some name ∧
       primary_variable ds = Some v ∧
       analyze_try f =
         analyze_main_var (parent_name f) (file_name f) ds v).
Proof.
  split_and!.
  - intros e He. unfold analyze_netcdf_file. by rewrite He.
  - intros Hc. unfold analyze_netcdf_file, analyze_try. by rewrite Hc.
  - intros ds Hc Hall. unfold analyze_netcdf_file, analyze_try, analyze_dataset.
    apply main_vars_nil in Hall. by rewrite Hc, Hall.
  - intros ds Hc Hsome.
    destruct (first_not_excluded _ Hsome) as (pre & name & v & post & Hl & Hpre & Hname).
    exists pre, name, v, post. destruct ds as [l t]. cbn [ds_variables] in Hl.
    subst l. destruct (main_vars_first pre name v post t Hpre Hname) as [Hm Hp].
    split_and!; try done.
    + by rewrite Hm.
    + unfold analyze_try, analyze_dataset. rewrite Hc.
      unfold primary_variable in Hp. rewrite Hm in Hp. by rewrite Hm, Hp.
Qed.

Lemma analyze_netcdf_file_primary f ds v :
  content f = Some ds → primary_variable ds = Some v →
  analyze_try f = analyze_main_var (parent_name f) (file_name f) ds v.
Proof.
  intros Hc Hp. unfold analyze_try, analyze_dataset. rewrite Hc.
  unfold primary_variable in Hp. destruct (main_vars ds); [done|].
  by rewrite Hp.
Qed.

Lemma analyze_netcdf_file_Some f r :
  analyze_netcdf_file f = Some r →
  ∃ ds v, content f = Some ds ∧ primary_variable ds = Some v ∧
    analyze_main_var (parent_name f) (file_name f) ds v = Returned (Some r).
Proof.
  unfold analyze_netcdf_file, analyze_try, analyze_dataset, primary_variable.
  destruct (content f) as [ds|] eqn:Hc; [|done].
  destruct (main_vars ds) as [|m ms] eqn:Hm; [done|].
  destruct (ds_lookup ds m) as [v|] eqn:Hl; [|done].
  destruct (analyze_main_var _ _ ds v) as [o|] eqn:Hv; [|done].
  intros ->. exists ds, v. by rewrite Hm.
Qed.

(** ** Shapes that are not summarised *)

(** C9. A file whose main variable does not have exactly three axes yields
    a result, not null and not an error, whose statistics are empty. *)
Theorem unsupported_shape_empty_result (f : nc_file) (ds : dataset)
    (v : data_var) :
  content f = Some ds → primary_variable ds = Some v →
  length (shape (values v)) ≠ 3%nat →
  analyze_try f =
    Returned (Some (mk_file_result (parent_name f) (file_name f) ∅)) ∧
  analyze_netcdf_file f =
    Some (mk_file_result (parent_name f) (file_name f) ∅).
Proof.
  intros Hc Hp Hshape.
  assert (analyze_try f =
    Returned (Some (mk_file_result (parent_name f) (file_name f) ∅))) as Ht.
  { rewrite (analyze_netcdf_file_primary f ds v Hc Hp).
    unfold analyze_main_var. by rewrite decide_False. }
  split; [done|]. unfold analyze_netcdf_file. by rewrite Ht.
Qed.

Lemma unsupported_shape_witness :
  analyze_try flat_file =
    Returned (Some (mk_file_result "hgt" "hgt.sfc.nc" ∅)) ∧
  analyze_netcdf_file flat_file = Some (mk_file_result "hgt" "hgt.sfc.nc" ∅).
Proof.
  apply (unsupported_shape_empty_result flat_file
           (mk_dataset
             [("lat", mk_data_var ∅ (mk_ndarray [2%nat] [float_of_Z 1; float_of_Z 2]));
              ("hgt", mk_data_var ∅
                        (mk_ndarray [1; 2]%nat [S754_nan; float_of_Z 7]))]
             None)
           (mk_data_var ∅ (mk_ndarray [1; 2]%nat [S754_nan; float_of_Z 7]))).
  - reflexivity.
  - vm_compute. reflexivity.
  - simpl. lia.
Defined.

(** ** The loop over the time axis *)

Lemma day_step_unfold ds data fill_value daily_stats time_idx :
  day_step ds data fill_value daily_stats time_idx =
  if 0 <? slice_missing data fill_value time_idx then
    match date_at ds time_idx with
    | Raised e => Raised e
    | Returned date =>
        Returned (<[date := slice_stats data fill_value time_idx]> daily_stats)
    end
  else Returned daily_stats.
Proof. reflexivity. Qed.

Lemma day_loop_entries ds data fill_value idxs :
  ∀ acc res, day_loop ds data fill_value idxs acc = Returned res →
  ∀ date st, res !! date = Some st →
    acc !! date = Some st ∨
    ∃ time_idx, time_idx ∈ idxs ∧ date_at ds time_idx = Returned date ∧
      0 < slice_missing data fill_value time_idx ∧
      st = slice_stats data fill_value time_idx.
Proof.
  induction idxs as [|i idxs IH]; intros acc res Hloop date st Hst.
  - simpl in Hloop. injection Hloop as <-. by left.
  - cbn [day_loop] in Hloop. rewrite day_step_unfold in Hloop.
    destruct (0 <? slice_missing data fill_value i) eqn:Hpos.
    + destruct (date_at ds i) as [d|] eqn:Hd; [|done].
      destruct (IH _ _ Hloop _ _ Hst) as [Hacc|(j & Hj & ?)].
      * destruct (decide (d = date)) as [->|Hne].
        -- rewrite lookup_insert_eq in Hacc. injection Hacc as <-.
           right. exists i. split_and!; [left|done|lia|done].
        -- rewrite lookup_insert_ne in Hacc by done. by left.
      * right. exists j. split; [by right | done].
    + destruct (IH _ _ Hloop _ _ Hst) as [Hacc|(j & Hj & ?)]; [by left|].
      right. exists j. split; [by right | done].
Qed.

Lemma day_loop_absent ds data fill_value idxs date :
  ∀ acc res, day_loop ds data fill_value idxs acc = Returned res →
  acc !! date = None →
  (∀ time_idx, time_idx ∈ idxs → date_at ds time_idx = Returned date →
     slice_missing data fill_value time_idx = 0) →
  res !! date = None.
Proof.
  induction idxs as [|i idxs IH]; intros acc res Hloop Hacc Hzero.
  - simpl in Hloop. by injection Hloop as <-.
  - cbn [day_loop] in Hloop. rewrite day_step_unfold in Hloop.
    assert (∀ j, j ∈ idxs → date_at ds j = Returned date →
              slice_missing data fill_value j = 0) as Hrest.
    { intros j Hj. apply Hzero. by right. }
    destruct (0 <? slice_missing data fill_value i) eqn:Hpos.
    + destruct (date_at ds i) as [d|] eqn:Hd; [|done].
      apply (IH _ _ Hloop); [|done].
      destruct (decide (d = date)) as [->|Hne].
      * apply Z.ltb_lt in Hpos. rewrite (Hzero i) in Hpos; [lia|left|done].
      * by rewrite lookup_insert_ne.
    + by apply (IH _ _ Hloop).
Qed.

Lemma analyze_main_var_stats var_name fname ds v r :
  analyze_main_var var_name fname ds v = Returned (Some r) →
  variable r = var_name ∧ filename r = fname ∧
  (stats r = ∅ ∨
   day_loop ds (values v) (fill_value_of (attrs v))
     (seq 0 (hd 0%nat (shape (values v)))) ∅ = Returned (stats r)).
Proof.
  unfold analyze_main_var. case_decide.
  - destruct (day_loop _ _ _ _ _) as [res|]; [|done].
    intros [= <-]. split_and!; [done|done|by right].
  - intros [= <-]. split_and!; [done|done|by left].
Qed.

Lemma div_half_even_nearest a b :
  0 < b → nearest_integer_ties_even a b (div_half_even a b).
Proof.
  intros Hb. unfold nearest_integer_ties_even, div_half_even.
  pose proof (Z.div_mod a b ltac:(lia)) as Hdm.
  pose proof (Z.mod_pos_bound a b Hb) as Hr.
  set (q := a / b) in *. set (r := a mod b) in *.
  assert (a - q * b = r) as Hq by lia.
  assert (a - (q + 1) * b = r - b) as Hq1 by lia.
  destruct (Z.compare_spec (2 * r) b) as [Heq|Hlt|Hgt].
  - destruct (Z.even q) eqn:Hev.
    + rewrite Hq. split; [lia|done].
    + rewrite Hq1. split; [lia|]. intros _.
      rewrite Z.even_add, Hev. reflexivity.
  - rewrite Hq. split; lia.
  - rewrite Hq1. split; lia.
Qed.

Lemma nearest_integer_ties_even_unique num den n n' :
  0 < den →
  nearest_integer_ties_even num den n →
  nearest_integer_ties_even num den n' → n = n'.
Proof.
  intros Hden [Hn Hen] [Hn' Hen'].
  assert (n' - n ≤ 1 ∧ n - n' ≤ 1) as [H1 H2] by (split; nia).
  destruct (decide (n = n')) as [|Hne]; [done|exfalso].
  assert (n' = n + 1 ∨ n = n' + 1) as [->| ->] by lia.
  - assert (Z.abs (2 * (num - n * den)) = den) as Ht by nia.
    assert (Z.abs (2 * (num - (n + 1) * den)) = den) as Ht' by nia.
    specialize (Hen Ht). specialize (Hen' Ht').
    rewrite Z.even_add, Hen in Hen'. discriminate Hen'.
  - assert (Z.abs (2 * (num - n' * den)) = den) as Ht by nia.
    assert (Z.abs (2 * (num - (n' + 1) * den)) = den) as Ht' by nia.
    specialize (Hen' Ht). specialize (Hen Ht').
    rewrite Z.even_add, Hen' in Hen. discriminate Hen.
Qed.

Lemma py_round2_rounds x p :
  rounded_to_2_decimals x p ↔ p = py_round2 x.
Proof.
  destruct x as [s|s| |s m e]; try done.
  cbn [rounded_to_2_decimals py_round2].
  set (num := Z.pos m * 100 * 2 ^ Z.max e 0).
  set (den := 2 ^ Z.max (- e) 0).
  assert (0 < den) as Hden by (apply Z.pow_pos_nonneg; lia).
  pose proof (div_half_even_nearest num den Hden) as Hcode.
  split.
  - intros (n & Hn & ->).
    by rewrite (nearest_integer_ties_even_unique _ _ _ _ Hden Hn Hcode).
  - intros ->. by exists (div_half_even num den).
Qed.

(** C6. The result of a file holds a record only for time slices with at
    least one missing point: every record has a positive count, belongs to
    a slice of its date, and carries the percentage of that slice, which
    is the quotient of the counts times 100 rounded to 2 decimal places:
    a whole number of hundredths, the nearest to the product (the even one
    on a tie), as a binary64 number; a date all of whose slices are
    complete has no record.  The rounded value is determined by these
    words.  On the three-day scenario the first day has no record, the
    second has 1 of 4 (25.0) and the third 4 of 4 (100.0).  On a grid of
    three points the rounding shows: 1 of 3 is stored as 33.33 and 2 of 3
    as 66.67, the binary64 numbers within half a unit in the last place
    of 3333/100 and 6667/100, while the products before the rounding are
    33.33333333333333 and 66.66666666666666. *)
Theorem day_stats_only_for_missing_days :
  (∀ f r date st,
     analyze_netcdf_file f = Some r → stats r !! date = Some st →
     0 < missing_count st ∧
     missing_percentage st =
       percentage (missing_count st) (total_points st) ∧
     rounded_to_2_decimals
       (fmul (fdiv (float_of_Z (missing_count st))
                   (float_of_Z (total_points st)))
             (float_of_Z 100))
       (missing_percentage st) ∧
     ∃ ds v time_idx,
       content f = Some ds ∧ primary_variable ds = Some v ∧
       (time_idx < hd 0 (shape (values v)))%nat ∧
       date_at ds time_idx = Returned date ∧
       st = slice_stats (values v) (fill_value_of (attrs v)) time_idx) ∧
  (∀ f r ds v date,
     analyze_netcdf_file f = Some r → content f = Some ds →
     primary_variable ds = Some v →
     (∀ time_idx, (time_idx < hd 0 (shape (values v)))%nat →
        date_at ds time_idx = Returned date →
        slice_missing (values v) (fill_value_of (attrs v)) time_idx = 0) →
     stats r !! date = None) ∧
  (∀ x p p',
     rounded_to_2_decimals x p → rounded_to_2_decimals x p' → p = p') ∧
  analyze_netcdf_file scenario_file =
    Some (mk_file_result "air" "air.2020.nc"
            (<["2020-01-02" := mk_day_stats 1 4 (float_of_Z 25)]>
               (<["2020-01-03" := mk_day_stats 4 4 (float_of_Z 100)]> ∅))) ∧
  (analyze_netcdf_file scenario_file ≫= λ r, stats r !! "2020-01-01") = None ∧
  analyze_netcdf_file thirds_file =
    Some (mk_file_result "shum" "shum.2021.nc"
            (<["2021-03-01" :=
                 mk_day_stats 1 3 (S754_finite false 4690780486883082 (-47))]>
               (<["2021-03-02" :=
                    mk_day_stats 2 3
                      (S754_finite false 4691484174324859 (-46))]> ∅))) ∧
  fmul (fdiv (float_of_Z 1) (float_of_Z 3)) (float_of_Z 100) =
    S754_finite false 4691249611844266 (-47) ∧
  fmul (fdiv (float_of_Z 2) (float_of_Z 3)) (float_of_Z 100) =
    S754_finite false 4691249611844266 (-46) ∧
  hundredths false 3333 = S754_finite false 4690780486883082 (-47) ∧
  hundredths false 6667 = S754_finite false 4691484174324859 (-46) ∧
  hundredths false 2500 = float_of_Z 25 ∧
  hundredths false 10000 = float_of_Z 100 ∧
  within_half_ulp 3333 100 (S754_finite false 4690780486883082 (-47)) = true ∧
  within_half_ulp 6667 100 (S754_finite false 4691484174324859 (-46)) = true.
Proof.
  split_and!.
  - intros f r date st Hf Hst.
    destruct (analyze_netcdf_file_Some _ _ Hf) as (ds & v & Hc & Hp & Hv).
    destruct (analyze_main_var_stats _ _ _ _ _ Hv) as (_ & _ & [Hempty|Hloop]).
    { by rewrite Hempty, lookup_empty in Hst. }
    destruct (day_loop_entries _ _ _ _ _ _ Hloop _ _ Hst)
      as [Hacc|(i & Hi & Hd & Hpos & ->)].
    { by rewrite lookup_empty in Hacc. }
    split_and!; [done|done|by apply py_round2_rounds|].
    exists ds, v, i. split_and!; try done.
    apply elem_of_seq in Hi. lia.
  - intros f r ds v date Hf Hc Hp Hzero.
    destruct (analyze_netcdf_file_Some _ _ Hf) as (ds' & v' & Hc' & Hp' & Hv).
    assert (ds' = ds) as -> by congruence. assert (v' = v) as -> by congruence.
    destruct (analyze_main_var_stats _ _ _ _ _ Hv) as (_ & _ & [Hempty|Hloop]).
    { by rewrite Hempty, lookup_empty. }
    apply (day_loop_absent _ _ _ _ _ _ _ Hloop); [apply lookup_empty|].
    intros i Hi. apply Hzero. apply elem_of_seq in Hi. lia.
  - intros x p p' Hp%py_round2_rounds Hp'%py_round2_rounds. congruence.
  - vm_compute. reflexivity.
  - vm_compute. reflexivity.
  - vm_compute. reflexivity.
  - vm_compute. reflexivity.
  - vm_compute. reflexivity.
  - vm_compute. reflexivity.
  - vm_compute. reflexivity.
  - vm_compute. reflexivity.
  - vm_compute. reflexivity.
  - vm_compute. reflexivity.
  - vm_compute. reflexivity.
Qed.

(** ** One fold *)

Lemma add_stats_comm v1 st1 v2 st2 s :
  running_max (max_percentage s) →
  add_stats v1 st1 (add_stats v2 st2 s) = add_stats v2 st2 (add_stats v1 st1 s).
Proof.
  intros Hs. unfold add_stats. cbn [total_missing variables_affected max_percentage].
  f_equal.
  - lia.
  - by rewrite !(assoc_L (∪)), (comm_L (∪) {[v1]} {[v2]}).
  - by apply py_max_right_comm.
Qed.

Lemma summaries_ok_empty : summaries_ok ∅.
Proof. intros d s. by rewrite lookup_empty. Qed.

Lemma summaries_ok_default summ d :
  summaries_ok summ → running_max (max_percentage (default new_summary (summ !! d))).
Proof.
  intros Hok. destruct (summ !! d) as [s|] eqn:Hs; simpl.
  - by eapply Hok.
  - apply running_max_zero.
Qed.

Lemma update_daily_summary_ok v daily_stats summ :
  summaries_ok summ → summaries_ok (update_daily_summary v daily_stats summ).
Proof.
  intros Hok d s. rewrite update_daily_summary_lookup.
  destruct (daily_stats !! d) as [st|]; [|apply Hok].
  intros [= <-]. cbn [add_stats max_percentage].
  by apply running_max_py_max, summaries_ok_default.
Qed.

Lemma update_daily_summary_comm v1 s1 v2 s2 summ :
  summaries_ok summ →
  update_daily_summary v1 s1 (update_daily_summary v2 s2 summ) =
  update_daily_summary v2 s2 (update_daily_summary v1 s1 summ).
Proof.
  intros Hok. apply map_eq. intros d.
  rewrite !update_daily_summary_lookup.
  destruct (s1 !! d) as [st1|], (s2 !! d) as [st2|]; simpl; try done.
  f_equal. by apply add_stats_comm, summaries_ok_default.
Qed.

Lemma fold_result_Returned c r c' :
  fold_result c (Some r) = Returned c' →
  ∃ m, variables c !! variable r = Some m ∧
    c' = mk_catalog (cat_metadata c)
           (<[variable r := dict_update m (stats r)]> (variables c))
           (update_daily_summary (variable r) (stats r) (daily_summary c)).
Proof.
  unfold fold_result. destruct (variables c !! variable r) as [m|]; [|done].
  intros [= <-]. by exists m.
Qed.

Lemma fold_result_ok c x c' :
  summaries_ok (daily_summary c) → fold_result c x = Returned c' →
  summaries_ok (daily_summary c').
Proof.
  intros Hok. destruct x as [r|].
  - intros (m & _ & ->)%fold_result_Returned. by apply update_daily_summary_ok.
  - by intros [= <-].
Qed.

Lemma same_but_entries_refl c : same_but_entries c c.
Proof. done. Qed.

Lemma same_but_entries_trans c1 c2 c3 :
  same_but_entries c1 c2 → same_but_entries c2 c3 → same_but_entries c1 c3.
Proof. intros (?&?&?) (?&?&?). split_and!; congruence. Qed.

Lemma outcome_rel_trans {A} (R : A → A → Prop) o1 o2 o3 :
  (∀ a b c, R a b → R b c → R a c) →
  outcome_rel R o1 o2 → outcome_rel R o2 o3 → outcome_rel R o1 o3.
Proof.
  intros HR. destruct o1, o2, o3; simpl; try done; [apply HR | congruence].
Qed.

Lemma outcome_rel_bind {A B} (R : A → A → Prop) (Q : B → B → Prop) o1 o2 k1 k2 :
  outcome_rel R o1 o2 →
  (∀ a b, R a b → outcome_rel Q (k1 a) (k2 b)) →
  outcome_rel Q (outcome_bind o1 k1) (outcome_bind o2 k2).
Proof. destruct o1, o2; simpl; try done. intros H Hk. by apply Hk. Qed.

Lemma aggregate_cons c x rs :
  aggregate c (x :: rs) = outcome_bind (fold_result c x) (λ c', aggregate c' rs).
Proof. reflexivity. Qed.

Lemma aggregate_cons2 c x y rs :
  aggregate c (x :: y :: rs) =
  outcome_bind (outcome_bind (fold_result c x) (λ c1, fold_result c1 y))
    (λ c2, aggregate c2 rs).
Proof. simpl. by destruct (fold_result c x). Qed.

Lemma fold_result_rel c1 c2 x :
  same_but_entries c1 c2 →
  outcome_rel same_but_entries (fold_result c1 x) (fold_result c2 x).
Proof.
  intros (Hm & Hd & Hs). destruct x as [r|]; simpl; [|done].
  destruct (variables c1 !! variable r) as [m1|] eqn:H1,
    (variables c2 !! variable r) as [m2|] eqn:H2; simpl.
  - split_and!; cbn [cat_metadata variables daily_summary]; [done| |by rewrite Hs].
    by rewrite !dom_insert_L, Hd.
  - apply mk_is_Some, elem_of_dom in H1. apply not_elem_of_dom in H2.
    by rewrite Hd in H1.
  - apply mk_is_Some, elem_of_dom in H2. apply not_elem_of_dom in H1.
    by rewrite Hd in H1.
  - done.
Qed.

Lemma aggregate_rel rs : ∀ c1 c2,
  same_but_entries c1 c2 →
  outcome_rel same_but_entries (aggregate c1 rs) (aggregate c2 rs).
Proof.
  induction rs as [|x rs IH]; intros c1 c2 Hc; [done|].
  rewrite !aggregate_cons. eapply outcome_rel_bind; [by apply fold_result_rel|].
  apply IH.
Qed.

Lemma fold_result_swap c x y :
  summaries_ok (daily_summary c) →
  outcome_rel same_but_entries
    (outcome_bind (fold_result c x) (λ c', fold_result c' y))
    (outcome_bind (fold_result c y) (λ c', fold_result c' x)).
Proof.
  intros Hok. destruct x as [r1|], y as [r2|]; simpl;
    try (by destruct (variables c !! _)); [|done].
  destruct (variables c !! variable r1) as [m1|] eqn:H1,
    (variables c !! variable r2) as [m2|] eqn:H2; simpl;
    cbn [variables cat_metadata daily_summary]; rewrite ?H1, ?H2; try done.
  - assert (∀ v w (a b : gmap string day_stats) (vars : gmap string (gmap string day_stats)),
      vars !! w = Some b → is_Some (<[v := a]> vars !! w)) as Hins.
    { intros v w a b vars Hw. destruct (decide (v = w)) as [->|Hne].
      - rewrite lookup_insert_eq. eauto.
      - rewrite lookup_insert_ne by done. eauto. }
    destruct (Hins (variable r1) (variable r2) (dict_update m1 (stats r1)) m2 _ H2) as [m2' ->].
    destruct (Hins (variable r2) (variable r1) (dict_update m2 (stats r2)) m1 _ H1) as [m1' ->].
    simpl. split_and!; cbn [cat_metadata variables daily_summary].
    + done.
    + rewrite !dom_insert_L.
      by rewrite !(assoc_L (∪)), (comm_L (∪) {[variable r1]} {[variable r2]}).
    + by apply update_daily_summary_comm.
  - rewrite lookup_insert_ne; [by rewrite H2|]. intros Heq. congruence.
  - rewrite lookup_insert_ne; [by rewrite H1|]. intros Heq. congruence.
Qed.

(** ** Folding in another order *)

Lemma aggregate_ok rs : ∀ c c',
  summaries_ok (daily_summary c) → aggregate c rs = Returned c' →
  summaries_ok (daily_summary c').
Proof.
  induction rs as [|x rs IH]; intros c c' Hok.
  - by intros [= <-].
  - rewrite aggregate_cons. destruct (fold_result c x) as [c1|] eqn:Hx; [|done].
    simpl. apply IH. by eapply fold_result_ok.
Qed.

Lemma aggregate_permutation rs rs' :
  rs ≡ₚ rs' → ∀ c c',
  same_but_entries c c' → summaries_ok (daily_summary c) →
  outcome_rel same_but_entries (aggregate c rs) (aggregate c' rs').
Proof.
  induction 1 as [|x l l' Hl IH|x y l|l l' l'' H1 IH1 H2 IH2]; intros c c' Hc Hok.
  - done.
  - rewrite !aggregate_cons.
    pose proof (fold_result_rel c c' x Hc) as Hx.
    destruct (fold_result c x) as [c1|] eqn:H1, (fold_result c' x) as [c1'|];
      simpl in *; try done.
    apply IH; [done|]. by eapply fold_result_ok.
  - rewrite !aggregate_cons2.
    eapply outcome_rel_trans; [apply same_but_entries_trans| |].
    + eapply outcome_rel_bind; [by apply fold_result_swap|].
      intros a b Hab. by apply aggregate_rel.
    + eapply outcome_rel_bind; [|intros a b Hab; by apply aggregate_rel].
      eapply outcome_rel_bind; [by apply fold_result_rel|].
      intros a b Hab. by apply fold_result_rel.
  - eapply outcome_rel_trans; [apply same_but_entries_trans| |].
    + apply (IH1 c c); [apply same_but_entries_refl | done].
    + by apply IH2.
Qed.

(** ** Last write wins *)

Lemma fold_result_entry c x c1 v d :
  fold_result c x = Returned c1 →
  entry c1 v d = from_option Some (entry c v d) (writes v d x).
Proof.
  destruct x as [r|]; [|by intros [= <-]].
  intros (m & Hm & ->)%fold_result_Returned.
  unfold entry, writes. cbn [variables mbind option_bind].
  destruct (decide (variable r = v)) as [<-|Hne].
  - rewrite lookup_insert_eq, Hm. simpl. unfold dict_update.
    rewrite lookup_union. by destruct (stats r !! d), (m !! d).
  - by rewrite lookup_insert_ne.
Qed.

Lemma writers_cons v d x rs :
  writers v d (x :: rs) = option_list (writes v d x) ++ writers v d rs.
Proof. unfold writers. simpl. by destruct (writes v d x). Qed.

Lemma aggregate_entry rs : ∀ c c',
  aggregate c rs = Returned c' →
  ∀ v d, entry c' v d = from_option Some (entry c v d) (last (writers v d rs)).
Proof.
  induction rs as [|x rs IH]; intros c c' Hagg v d.
  - by injection Hagg as <-.
  - rewrite aggregate_cons in Hagg.
    destruct (fold_result c x) as [c1|] eqn:Hx; [|done]. simpl in Hagg.
    rewrite (IH _ _ Hagg), (fold_result_entry _ _ _ _ _ Hx), writers_cons.
    rewrite last_app. destruct (last (writers v d rs)); [done|].
    by destruct (writes v d x).
Qed.

Lemma writers_permutation v d rs rs' :
  rs ≡ₚ rs' → writers v d rs ≡ₚ writers v d rs'.
Proof. intros H. unfold writers. by rewrite H. Qed.

Lemma writers_single v d rs rs' :
  rs ≡ₚ rs' → (length (writers v d rs) ≤ 1)%nat →
  writers v d rs' = writers v d rs.
Proof.
  intros Hp%(writers_permutation v d) Hlen.
  destruct (writers v d rs) as [|st [|st' l]]; simpl in Hlen; [| |lia].
  - by apply Permutation_nil_l in Hp.
  - by apply Permutation_singleton_l in Hp.
Qed.

Lemma catalog_eq c1 c2 :
  same_but_entries c1 c2 → (∀ v d, entry c1 v d = entry c2 v d) → c1 = c2.
Proof.
  destruct c1 as [md1 vars1 summ1], c2 as [md2 vars2 summ2].
  intros (Hm & Hd & Hs) He. simpl in *. subst. f_equal.
  apply map_eq. intros v.
  destruct (vars1 !! v) as [m1|] eqn:H1, (vars2 !! v) as [m2|] eqn:H2.
  - f_equal. apply map_eq. intros d. specialize (He v d).
    unfold entry in He. simpl in He. by rewrite H1, H2 in He.
  - apply mk_is_Some, elem_of_dom in H1. apply not_elem_of_dom in H2.
    by rewrite Hd in H1.
  - apply mk_is_Some, elem_of_dom in H2. apply not_elem_of_dom in H1.
    by rewrite Hd in H1.
  - done.
Qed.

(** C1. Folding the same results in another order gives the same catalog
    but for the records stored at keys (variable, date) that several
    results write: the metadata, the daily summary and the set of
    variables agree, every key written at most once holds the same
    record, and at a key written several times the last result applied
    wins.  Without such collisions the two catalogs are equal.  The
    catalog folded into is the empty one or any other whose summaries hold
    running maxima. *)
Theorem aggregate_order_independent (c : catalog)
    (rs rs' : list (option file_result)) :
  summaries_ok (daily_summary c) → rs ≡ₚ rs' →
  outcome_rel
    (λ c1 c2,
       cat_metadata c1 = cat_metadata c2 ∧
       daily_summary c1 = daily_summary c2 ∧
       dom (variables c1) = dom (variables c2) ∧
       (∀ v d, (length (writers v d rs) ≤ 1)%nat →
          entry c1 v d = entry c2 v d) ∧
       (∀ v d st, last (writers v d rs) = Some st → entry c1 v d = Some st) ∧
       (∀ v d st, last (writers v d rs') = Some st → entry c2 v d = Some st) ∧
       (collision_free rs → c1 = c2))
    (aggregate c rs) (aggregate c rs').
Proof.
  intros Hok Hp.
  pose proof (aggregate_permutation rs rs' Hp c c (same_but_entries_refl c) Hok)
    as Hrel.
  destruct (aggregate c rs) as [c1|e1] eqn:H1,
    (aggregate c rs') as [c2|e2] eqn:H2; simpl in *; try done.
  destruct Hrel as (Hm & Hd & Hs).
  assert (∀ v d, (length (writers v d rs) ≤ 1)%nat →
            entry c1 v d = entry c2 v d) as Hsingle.
  { intros v d Hlen.
    rewrite (aggregate_entry _ _ _ H1), (aggregate_entry _ _ _ H2).
    by rewrite (writers_single v d rs rs' Hp Hlen). }
  split_and!; try done.
  - intros v d st Hst. by rewrite (aggregate_entry _ _ _ H1), Hst.
  - intros v d st Hst. by rewrite (aggregate_entry _ _ _ H2), Hst.
  - intros Hfree. apply catalog_eq; [done|].
    intros v d. apply Hsingle, Hfree.
Qed.

Lemma aggregate_order_independent_witness :
  outcome_rel
    (λ c1 c2,
       cat_metadata c1 = cat_metadata c2 ∧
       daily_summary c1 = daily_summary c2 ∧
       dom (variables c1) = dom (variables c2) ∧
       (∀ v d, (length (writers v d [Some air_first; None; Some hgt_first]) ≤ 1)%nat →
          entry c1 v d = entry c2 v d) ∧
       (∀ v d st, last (writers v d [Some air_first; None; Some hgt_first]) = Some st →
          entry c1 v d = Some st) ∧
       (∀ v d st, last (writers v d [Some hgt_first; Some air_first; None]) = Some st →
          entry c2 v d = Some st) ∧
       (collision_free [Some air_first; None; Some hgt_first] → c1 = c2))
    (aggregate sample_catalog [Some air_first; None; Some hgt_first])
    (aggregate sample_catalog [Some hgt_first; Some air_first; None]).
Proof.
  apply (aggregate_order_independent sample_catalog
           [Some air_first; None; Some hgt_first]
           [Some hgt_first; Some air_first; None]).
  - intros d s H. vm_compute in H. discriminate H.
  - symmetry.
    exact (Permutation_cons_append [Some air_first; None] (Some hgt_first)).
Defined.

(** ** Folding a result again *)

Lemma fold_result_empty_stats c r c1 :
  fold_result c (Some r) = Returned c1 → stats r = ∅ → c1 = c.
Proof.
  intros (m & Hm & ->)%fold_result_Returned Hempty. destruct c as [md vars summ].
  simpl in *. rewrite Hempty. unfold dict_update, update_daily_summary.
  rewrite (left_id_L ∅ (∪)), map_fold_empty. f_equal. by apply insert_id.
Qed.

Lemma aggregate_app rs1 rs2 : ∀ c,
  aggregate c (rs1 ++ rs2) =
  outcome_bind (aggregate c rs1) (λ c', aggregate c' rs2).
Proof.
  induction rs1 as [|x rs1 IH]; intros c; [done|].
  rewrite <- app_comm_cons, !aggregate_cons.
  destruct (fold_result c x); simpl; [apply IH|done].
Qed.

Lemma py_max_not_below a b p :
  flt a p = false → flt (py_max a b) p = false.
Proof.
  intros Hap. unfold py_max. destruct (flt a b) eqn:Hab; [|done].
  destruct (flt b p) eqn:Hbp; [|done].
  by rewrite (flt_trans _ _ _ Hab Hbp) in Hap.
Qed.

Lemma py_max_self_not_below a p : flt (py_max a p) p = false.
Proof.
  unfold py_max. destruct (flt a p) eqn:Hap; [apply flt_irrefl|done].
Qed.

Lemma py_max_absorbed a p : flt a p = false → py_max a p = a.
Proof. intros H. unfold py_max. by rewrite H. Qed.

Lemma fold_result_folded_in c r c1 :
  fold_result c (Some r) = Returned c1 → folded_in r c1.
Proof.
  intros (m & Hm & ->)%fold_result_Returned. split.
  - cbn [variables]. rewrite lookup_insert_eq. eauto.
  - intros d st Hst. cbn [daily_summary].
    rewrite update_daily_summary_lookup, Hst. eexists. split; [done|].
    cbn [add_stats variables_affected max_percentage]. split.
    + apply elem_of_union_l, elem_of_singleton. done.
    + apply py_max_self_not_below.
Qed.

Lemma fold_result_keeps_folded_in r c x c1 :
  folded_in r c → fold_result c x = Returned c1 → folded_in r c1.
Proof.
  intros [Hsome Hsumm] Hx. destruct x as [r'|]; [|by injection Hx as <-].
  apply fold_result_Returned in Hx as (m & Hm & ->). split.
  - cbn [variables]. destruct (decide (variable r' = variable r)) as [->|Hne].
    + rewrite lookup_insert_eq. eauto.
    + by rewrite lookup_insert_ne.
  - intros d st Hst. destruct (Hsumm d st Hst) as (s & Hs & Hin & Hmax).
    cbn [daily_summary]. rewrite update_daily_summary_lookup, Hs.
    destruct (stats r' !! d) as [st'|]; [|by exists s].
    eexists. split; [done|].
    cbn [add_stats variables_affected max_percentage default]. split.
    + by apply elem_of_union_r.
    + by apply py_max_not_below.
Qed.

Lemma aggregate_keeps_folded_in r rs : ∀ c c',
  folded_in r c → aggregate c rs = Returned c' → folded_in r c'.
Proof.
  induction rs as [|x rs IH]; intros c c' Hin Hagg.
  - by injection Hagg as <-.
  - rewrite aggregate_cons in Hagg.
    destruct (fold_result c x) as [c1|] eqn:Hx; [|done]. simpl in Hagg.
    apply (IH c1); [|done]. by eapply fold_result_keeps_folded_in.
Qed.

Lemma register_folder_keeps_folded_in r c v :
  folded_in r c → folded_in r (register_folder v c).
Proof.
  intros [Hsome Hsumm]. split; [|done]. cbn [register_folder variables].
  destruct (decide (v = variable r)) as [->|Hne].
  - rewrite lookup_insert_eq. eauto.
  - by rewrite lookup_insert_ne.
Qed.

Lemma catalog_steps_keep_folded_in r c c' :
  rtc catalog_step c c' → folded_in r c → folded_in r c'.
Proof.
  induction 1 as [|c c1 c' Hstep _ IH]; [done|]. intros Hin. apply IH.
  destruct Hstep as [c x c1 Hx|c v].
  - by eapply fold_result_keeps_folded_in.
  - by apply register_folder_keeps_folded_in.
Qed.

Lemma aggregate_steps rs : ∀ c c',
  aggregate c rs = Returned c' → rtc catalog_step c c'.
Proof.
  induction rs as [|x rs IH]; intros c c' Hagg.
  - injection Hagg as <-. apply rtc_refl.
  - rewrite aggregate_cons in Hagg.
    destruct (fold_result c x) as [c1|] eqn:Hx; [|done].
    cbn [outcome_bind] in Hagg.
    eapply rtc_l; [by eapply step_fold|by apply IH].
Qed.

Lemma fold_result_refold r c :
  folded_in r c →
  ∃ c2, fold_result c (Some r) = Returned c2 ∧
    cat_metadata c2 = cat_metadata c ∧
    dom (variables c2) = dom (variables c) ∧
    dom (daily_summary c2) = dom (daily_summary c) ∧
    (∀ v d, entry c2 v d =
            if decide (variable r = v)
            then from_option Some (entry c v d) (stats r !! d)
            else entry c v d) ∧
    ((∀ d st, stats r !! d = Some st → entry c (variable r) d = Some st) →
     variables c2 = variables c) ∧
    (∀ d, daily_summary c2 !! d =
          (λ s, mk_day_summary
                  (total_missing s + from_option missing_count 0 (stats r !! d))
                  (variables_affected s) (max_percentage s))
            <$> daily_summary c !! d).
Proof.
  intros [[m Hm] Hsumm].
  assert (∀ d, update_daily_summary (variable r) (stats r) (daily_summary c) !! d =
          (λ s, mk_day_summary
                  (total_missing s + from_option missing_count 0 (stats r !! d))
                  (variables_affected s) (max_percentage s))
            <$> daily_summary c !! d) as Hsum.
  { intros d. rewrite update_daily_summary_lookup.
    destruct (stats r !! d) as [st|] eqn:Hst.
    - destruct (Hsumm d st Hst) as (s & -> & Hin & Hmax). simpl. f_equal.
      unfold add_stats. f_equal.
      + apply subseteq_union_1_L, singleton_subseteq_l. done.
      + by apply py_max_absorbed.
    - destruct (daily_summary c !! d) as [[t a p]|]; simpl; [|done].
      f_equal. f_equal. lia. }
  destruct (fold_result c (Some r)) as [c2|] eqn:H2;
    [|by unfold fold_result in H2; rewrite Hm in H2].
  exists c2. split; [done|].
  pose proof (λ v d, fold_result_entry _ _ _ v d H2) as Hentry.
  apply fold_result_Returned in H2 as (m' & Hm' & ->).
  assert (m' = m) as -> by congruence.
  split_and!; [done| | | | |done].
  - cbn [variables]. rewrite dom_insert_L.
    apply subseteq_union_1_L, singleton_subseteq_l, elem_of_dom. eauto.
  - apply set_eq. intros d. cbn [daily_summary].
    rewrite !elem_of_dom, Hsum, fmap_is_Some. done.
  - intros v d. rewrite Hentry. unfold writes.
    simpl. by destruct (decide (variable r = v)).
  - intros Hkept. cbn [variables]. apply insert_id. rewrite Hm. f_equal.
    apply map_eq. intros d. unfold dict_update. rewrite lookup_union.
    destruct (stats r !! d) as [st|] eqn:Hst; [|by destruct (m !! d)].
    specialize (Hkept d st Hst). unfold entry in Hkept.
    rewrite Hm in Hkept. simpl in Hkept. by rewrite Hkept.
Qed.

(** C3. Folding the null result leaves the catalog as it is, and so does
    folding a result without records.  Folding a result that was folded
    before, at once or after any number of further folds and folder
    registrations, is not a no-op: the metadata, the variables that have
    a mapping, the dates, the affected variables and the maxima stay,
    every count of the result is added to the total of its date once
    more, and the records of the result are stored again under its
    variable, over whatever was stored at the same dates since.  The
    stored records stay as they are exactly when the catalog still holds
    the result's records; a record is still held right after the first
    fold, and after later results of the same list none of which wrote
    its date under the result's variable. *)
Theorem fold_result_again :
  (∀ c, fold_result c None = Returned c) ∧
  (∀ c r c1, fold_result c (Some r) = Returned c1 → stats r = ∅ → c1 = c) ∧
  (∀ c0 r c1 c,
     fold_result c0 (Some r) = Returned c1 → rtc catalog_step c1 c →
     ∃ c2, fold_result c (Some r) = Returned c2 ∧
       cat_metadata c2 = cat_metadata c ∧
       dom (variables c2) = dom (variables c) ∧
       dom (daily_summary c2) = dom (daily_summary c) ∧
       (∀ v d, entry c2 v d =
               if decide (variable r = v)
               then from_option Some (entry c v d) (stats r !! d)
               else entry c v d) ∧
       ((∀ d st, stats r !! d = Some st →
                 entry c (variable r) d = Some st) ↔
        variables c2 = variables c) ∧
       (∀ d, daily_summary c2 !! d =
             (λ s, mk_day_summary
                     (total_missing s +
                      from_option missing_count 0 (stats r !! d))
                     (variables_affected s) (max_percentage s))
               <$> daily_summary c !! d)) ∧
  (∀ c0 r c1 d st,
     fold_result c0 (Some r) = Returned c1 → stats r !! d = Some st →
     entry c1 (variable r) d = Some st) ∧
  (∀ c0 pre post r c d st,
     aggregate c0 (pre ++ Some r :: post) = Returned c →
     stats r !! d = Some st →
     writers (variable r) d post = [] →
     entry c (variable r) d = Some st).
Proof.
  assert (∀ c0 r c1 d st,
     fold_result c0 (Some r) = Returned c1 → stats r !! d = Some st →
     entry c1 (variable r) d = Some st) as Hfirst.
  { intros c0 r c1 d st Hr Hst. rewrite (fold_result_entry _ _ _ _ _ Hr).
    unfold writes. simpl. by rewrite decide_True, Hst. }
  split_and!; [done|apply fold_result_empty_stats| |exact Hfirst|].
  - intros c0 r c1 c Hr Hsteps.
    assert (folded_in r c) as Hin.
    { eapply catalog_steps_keep_folded_in; [exact Hsteps|].
      by eapply fold_result_folded_in. }
    destruct (fold_result_refold r c Hin)
      as (c2 & H2 & Hmd & Hdom & Hdates & Hentry & Hvars & Hsumm).
    exists c2. split_and!; try done. split; [exact Hvars|].
    intros Heq d st Hst. specialize (Hentry (variable r) d).
    rewrite decide_True, Hst in Hentry by done. simpl in Hentry.
    rewrite <- Hentry. unfold entry. by rewrite Heq.
  - intros c0 pre post r c d st Hagg Hst Hlast.
    rewrite aggregate_app in Hagg.
    destruct (aggregate c0 pre) as [ca|] eqn:Hpre; [|done].
    cbn [outcome_bind] in Hagg. rewrite aggregate_cons in Hagg.
    destruct (fold_result ca (Some r)) as [cb|] eqn:Hr; [|done].
    cbn [outcome_bind] in Hagg.
    rewrite (aggregate_entry _ _ _ Hagg), Hlast. simpl.
    by eapply Hfirst.
Qed.

(** After [air_first] and [air_second], which share a date, folding
    [air_first] once more puts its record back and raises the total. *)
Example fold_result_overwrites_later_record :
  let seen (o : outcome catalog) :=
    match o with
    | Returned c =>
        Some (missing_count <$> entry c "air" "2020-01-02",
              total_missing <$> daily_summary c !! "2020-01-02")
    | Raised _ => None
    end in
  seen (aggregate sample_catalog [Some air_first; Some air_second]) =
    Some (Some 2, Some 3) ∧
  seen (aggregate sample_catalog
          [Some air_first; Some air_second; Some air_first]) =
    Some (Some 1, Some 4).
Proof. split; vm_compute; reflexivity. Qed.

Lemma fold_result_not_idempotent :
  ∃ c1 c2,
    fold_result sample_catalog (Some air_first) = Returned c1 ∧
    fold_result c1 (Some air_first) = Returned c2 ∧
    total_missing <$> daily_summary c1 !! "2020-01-02" = Some 1 ∧
    total_missing <$> daily_summary c2 !! "2020-01-02" = Some 2 ∧
    c2 ≠ c1.
Proof.
  eexists _, _. split_and!.
  - vm_compute. reflexivity.
  - vm_compute. reflexivity.
  - vm_compute. reflexivity.
  - vm_compute. reflexivity.
  - intros Heq. apply (f_equal (λ c, total_missing <$> daily_summary c !! "2020-01-02")) in Heq.
    vm_compute in Heq. discriminate Heq.
Qed.

(** ** Sets become lists *)

Lemma set_iteration_elements : set_iteration elements.
Proof. by intros s. Qed.

Lemma set_iteration_descending : set_iteration descending.
Proof.
  intros s. unfold descending.
  by rewrite reverse_Permutation, merge_sort_Permutation.
Qed.

(** C4. The last loop turns every set of affected variables into a list
    that holds each member of the set once, in the order in which the set
    is iterated; nothing sorts it.  Totals, maxima, metadata and variables
    are carried over, and the returned catalog is the finalised result of
    the folds. *)
Theorem finalize_lists (to_list : gset string → list string) (c : catalog) :
  set_iteration to_list →
  out_metadata (finalize to_list c) = cat_metadata c ∧
  out_variables (finalize to_list c) = variables c ∧
  (∀ d, match daily_summary c !! d with
        | None => out_daily_summary (finalize to_list c) !! d = None
        | Some s =>
            ∃ o, out_daily_summary (finalize to_list c) !! d = Some o ∧
              out_total_missing o = total_missing s ∧
              out_max_percentage o = max_percentage s ∧
              NoDup (out_variables_affected o) ∧
              ∀ v, v ∈ out_variables_affected o ↔ v ∈ variables_affected s
        end) ∧
  (∀ now base fs out,
     create_daily_catalog to_list now base fs = Returned out →
     ∃ c', process_folders fs (new_catalog now base) var_folders = Returned c' ∧
           out = finalize to_list c').
Proof.
  intros Hiter. split_and!; [done|done| |].
  - intros d. unfold finalize. cbn [out_daily_summary]. rewrite lookup_fmap.
    destruct (daily_summary c !! d) as [s|]; simpl; [|done].
    eexists. split_and!; try done; cbn [out_variables_affected].
    + rewrite (Hiter (variables_affected s)). apply NoDup_elements.
    + intros v. by rewrite (Hiter (variables_affected s)), elem_of_elements.
  - intros now base fs out. unfold create_daily_catalog.
    destruct (process_folders _ _ _) as [c'|]; [|done].
    intros [= <-]. by exists c'.
Qed.

Lemma finalize_lists_witness :
  out_metadata (finalize elements sample_catalog) = cat_metadata sample_catalog ∧
  out_variables (finalize elements sample_catalog) = variables sample_catalog ∧
  (∀ d, match daily_summary sample_catalog !! d with
        | None => out_daily_summary (finalize elements sample_catalog) !! d = None
        | Some s =>
            ∃ o, out_daily_summary (finalize elements sample_catalog) !! d = Some o ∧
              out_total_missing o = total_missing s ∧
              out_max_percentage o = max_percentage s ∧
              NoDup (out_variables_affected o) ∧
              ∀ v, v ∈ out_variables_affected o ↔ v ∈ variables_affected s
        end) ∧
  (∀ now base fs out,
     create_daily_catalog elements now base fs = Returned out →
     ∃ c', process_folders fs (new_catalog now base) var_folders = Returned c' ∧
           out = finalize elements c').
Proof.
  apply (finalize_lists elements sample_catalog).
  intros s. reflexivity.
Defined.

Lemma finalize_not_sorted :
  set_iteration descending ∧
  ∃ out o,
    create_daily_catalog descending "2024-01-01T00:00:00" "/data" two_folders
      = Returned out ∧
    out_daily_summary out !! "2020-01-02" = Some o ∧
    out_variables_affected o = ["hgt"; "air"] ∧
    names_sorted (out_variables_affected o) = false.
Proof.
  split; [apply set_iteration_descending|].
  eexists _, _. split_and!.
  - vm_compute. reflexivity.
  - vm_compute. reflexivity.
  - vm_compute. reflexivity.
  - vm_compute. reflexivity.
Qed.

(** ** The loop over the variable folders *)

Lemma analyze_netcdf_file_variable f r :
  analyze_netcdf_file f = Some r → variable r = parent_name f.
Proof.
  intros (ds & v & _ & _ & Hv)%analyze_netcdf_file_Some.
  by destruct (analyze_main_var_stats _ _ _ _ _ Hv) as (? & _).
Qed.

Lemma folder_results_variable g files r :
  Some r ∈ folder_results g files → variable r = g.
Proof.
  unfold folder_results. intros (f & Hf & _)%list_elem_of_fmap.
  symmetry in Hf. by apply analyze_netcdf_file_variable in Hf.
Qed.

Lemma aggregate_null rs c :
  Forall (λ x, x = None) rs → aggregate c rs = Returned c.
Proof. induction 1 as [|x rs -> _ IH]; [done|]. by rewrite aggregate_cons. Qed.

Lemma aggregate_registered rs : ∀ c,
  (∀ r, Some r ∈ rs → is_Some (variables c !! variable r)) →
  ∃ c', aggregate c rs = Returned c' ∧
    cat_metadata c' = cat_metadata c ∧
    dom (variables c') = dom (variables c) ∧
    ∀ v, (∀ r, Some r ∈ rs → variable r ≠ v) →
         variables c' !! v = variables c !! v.
Proof.
  induction rs as [|x rs IH]; intros c Hreg.
  - by exists c.
  - rewrite aggregate_cons. destruct x as [r|].
    + destruct (Hreg r) as [m Hm]; [left|].
      unfold fold_result. rewrite Hm. cbn [outcome_bind].
      set (c1 := mk_catalog _ _ _).
      assert (dom (variables c1) = dom (variables c)) as Hdom.
      { unfold c1. cbn [variables]. rewrite dom_insert_L.
        apply subseteq_union_1_L, singleton_subseteq_l, elem_of_dom. eauto. }
      destruct (IH c1) as (c' & Hagg & Hmd & Hd & Hother).
      { intros r' Hr'. apply elem_of_dom. rewrite Hdom. apply elem_of_dom.
        apply Hreg. by right. }
      exists c'. split_and!; [done|done|congruence|].
      intros v Hv. rewrite Hother.
      * unfold c1. cbn [variables]. apply lookup_insert_ne, Hv. left.
      * intros r' Hr'. apply Hv. by right.
    + simpl. destruct (IH c) as (c' & Hagg & Hmd & Hd & Hother).
      { intros r' Hr'. apply Hreg. by right. }
      exists c'. split_and!; try done.
      intros v Hv. apply Hother. intros r' Hr'. apply Hv. by right.
Qed.

Lemma process_folder_spec fs c g :
  ∃ c', process_folder fs c g = Returned c' ∧
    variables_processed (cat_metadata c') =
      variables_processed (cat_metadata c) ++ filter (λ g, is_Some (fs g)) [g] ∧
    (∀ v, v ≠ g → variables c' !! v = variables c !! v) ∧
    match fs g with
    | None => variables c' !! g = variables c !! g
    | Some files =>
        is_Some (variables c' !! g) ∧
        (Forall (λ f, analyze_netcdf_file (mk_nc_file g f.1 f.2) = None) files →
         variables c' !! g = Some ∅)
    end.
Proof.
  unfold process_folder. destruct (fs g) as [files|] eqn:Hfs.
  - destruct (aggregate_registered (folder_results g files) (register_folder g c))
      as (c' & Hagg & Hmd & Hd & Hother).
    { intros r ->%folder_results_variable. cbn [register_folder variables].
      rewrite lookup_insert_eq. eauto. }
    exists c'. split_and!.
    + done.
    + rewrite Hmd. cbn [register_folder cat_metadata variables_processed].
      rewrite filter_cons_True, filter_nil; [done|]. by rewrite Hfs.
    + intros v Hv. rewrite Hother.
      * cbn [register_folder variables]. by apply lookup_insert_ne.
      * intros r ->%folder_results_variable. done.
    + apply elem_of_dom. rewrite Hd. cbn [register_folder variables].
      rewrite dom_insert_L. apply elem_of_union_l, elem_of_singleton. done.
    + intros Hnull. rewrite aggregate_null in Hagg.
      * injection Hagg as <-. cbn [register_folder variables].
        apply lookup_insert_eq.
      * unfold folder_results. by apply Forall_fmap.
  - exists c. split_and!; try done.
    rewrite filter_cons_False; [by rewrite filter_nil, app_nil_r|].
    rewrite Hfs. by intros [? ?].
Qed.

Lemma process_folders_spec fs folders :
  NoDup folders → ∀ c, ∃ c',
    process_folders fs c folders = Returned c' ∧
    variables_processed (cat_metadata c') =
      variables_processed (cat_metadata c) ++ filter (λ g, is_Some (fs g)) folders ∧
    (∀ g, g ∉ folders → variables c' !! g = variables c !! g) ∧
    (∀ g files, g ∈ folders → fs g = Some files →
       is_Some (variables c' !! g) ∧
       (Forall (λ f, analyze_netcdf_file (mk_nc_file g f.1 f.2) = None) files →
        variables c' !! g = Some ∅)).
Proof.
  induction 1 as [|g0 rest Hfresh Hnd IH]; intros c.
  - exists c. split_and!; [done|by rewrite filter_nil, app_nil_r|done|].
    intros g files Hg. by apply elem_of_nil in Hg.
  - destruct (process_folder_spec fs c g0) as (c1 & H1 & Hvp1 & Hother1 & Hg0).
    destruct (IH c1) as (c' & H' & Hvp' & Hother' & Hin').
    exists c'. cbn [process_folders]. rewrite H1. split_and!.
    + done.
    + rewrite Hvp', Hvp1, <- (assoc_L (++)). f_equal.
      rewrite !filter_cons, filter_nil. by destruct (decide (is_Some (fs g0))).
    + intros g [Hne Hg]%not_elem_of_cons. rewrite Hother' by done.
      by apply Hother1.
    + intros g files [->|Hg]%elem_of_cons Hfs.
      * rewrite Hother' by done. by rewrite Hfs in Hg0.
      * by apply Hin'.
Qed.

Lemma var_folders_NoDup : NoDup var_folders.
Proof. apply (bool_decide_unpack (NoDup var_folders)). vm_compute. exact I. Qed.

(** C10. A folder that exists is first recorded among the processed
    variables and given an empty mapping, and only then are the results of
    its files folded.  So in the catalog that is returned every existing
    folder is listed and has a mapping, which is empty when the folder has
    no file or when every file yields the null result. *)
Theorem existing_folder_registered (to_list : gset string → list string)
    (now base : string) (fs : listing) :
  (∀ c g files, fs g = Some files →
     process_folder fs c g =
       aggregate (register_folder g c) (folder_results g files)) ∧
  (∀ c g,
     variables_processed (cat_metadata (register_folder g c)) =
       variables_processed (cat_metadata c) ++ [g] ∧
     variables (register_folder g c) !! g = Some ∅) ∧
  ∃ out,
    create_daily_catalog to_list now base fs = Returned out ∧
    variables_processed (out_metadata out) =
      filter (λ g, is_Some (fs g)) var_folders ∧
    ∀ g files, g ∈ var_folders → fs g = Some files →
      g ∈ variables_processed (out_metadata out) ∧
      is_Some (out_variables out !! g) ∧
      (files = [] → out_variables out !! g = Some ∅) ∧
      (Forall (λ f, analyze_netcdf_file (mk_nc_file g f.1 f.2) = None) files →
       out_variables out !! g = Some ∅).
Proof.
  split_and!.
  - intros c g files Hfs. unfold process_folder. by rewrite Hfs.
  - intros c g. split; [done|]. apply lookup_insert_eq.
  - destruct (process_folders_spec fs var_folders var_folders_NoDup
                (new_catalog now base)) as (c' & Hrun & Hvp & _ & Hin).
    exists (finalize to_list c'). unfold create_daily_catalog. rewrite Hrun.
    split_and!; [done|done|].
    intros g files Hg Hfs. destruct (Hin g files Hg Hfs) as [Hsome Hnull].
    split_and!.
    + cbn [finalize out_metadata]. rewrite Hvp. simpl.
      apply list_elem_of_filter. split; [by rewrite Hfs | done].
    + done.
    + intros ->. by apply Hnull.
    + done.
Qed.

(** ** The daily summary and the stored records *)

Lemma flt_not_nan a b : flt a b = true → is_nan b = false.
Proof. destruct a as [[]|[]| |[]], b as [[]|[]| |[]]; done. Qed.

Lemma feq_refl b : is_nan b = false → feq b b = true.
Proof.
  unfold feq, SFeqb. destruct b as [[]|[]| |[] m e]; simpl; try done;
    by rewrite Z.compare_refl, Pos.compare_cont_refl.
Qed.

Lemma nonneg_not_above b :
  SFleb (S754_zero false) b = true → flt (S754_zero false) b = false →
  feq (S754_zero false) b = true.
Proof.
  unfold flt, feq, SFleb, SFltb, SFeqb.
  by destruct (SFcompare (S754_zero false) b) as [[]|].
Qed.

Lemma date_column_lookup vars d v :
  date_column vars d !! v = vars !! v ≫= λ m, m !! d.
Proof. unfold date_column. by rewrite lookup_omap. Qed.

Lemma date_column_insert vars v m other d :
  vars !! v = Some m →
  date_column (<[v := dict_update m other]> vars) d =
  match other !! d with
  | Some st => <[v := st]> (date_column vars d)
  | None => date_column vars d
  end.
Proof.
  intros Hm. apply map_eq. intros w. rewrite date_column_lookup.
  destruct (decide (v = w)) as [<-|Hne].
  - rewrite lookup_insert_eq. simpl. unfold dict_update. rewrite lookup_union.
    destruct (other !! d) as [st|] eqn:Hd.
    + rewrite lookup_insert_eq. by destruct (m !! d).
    + rewrite date_column_lookup, Hm. simpl. by destruct (m !! d).
  - rewrite lookup_insert_ne by done.
    destruct (other !! d); by rewrite ?lookup_insert_ne, date_column_lookup.
Qed.

Lemma date_total_insert (col : gmap string day_stats) v st :
  col !! v = None →
  map_fold (λ _ st acc, acc + missing_count st) 0 (<[v := st]> col) =
  map_fold (λ _ st acc, acc + missing_count st) 0 col + missing_count st.
Proof.
  intros Hv.
  rewrite (map_fold_insert_L (λ _ st acc, acc + missing_count st)); [done| |done].
  intros. lia.
Qed.

Lemma true_max_insert p col v st :
  col !! v = None →
  SFleb (S754_zero false) (missing_percentage st) = true →
  (col = ∅ ∧ p = S754_zero false) ∨ true_max p col →
  true_max (py_max p (missing_percentage st)) (<[v := st]> col).
Proof.
  intros Hv Hnn Hp. unfold py_max.
  destruct (flt p (missing_percentage st)) eqn:Hlt.
  - split.
    + exists v, st. split; [apply lookup_insert_eq|].
      by eapply feq_refl, flt_not_nan.
    + intros w st' Hw. destruct (decide (v = w)) as [<-|Hne].
      * rewrite lookup_insert_eq in Hw. injection Hw as <-. apply flt_irrefl.
      * rewrite lookup_insert_ne in Hw by done.
        destruct Hp as [[-> _]|[_ Hup]]; [by rewrite lookup_empty in Hw|].
        destruct (flt (missing_percentage st) (missing_percentage st')) eqn:H'; [|done].
        pose proof (Hup _ _ Hw) as Hup'.
        by rewrite (flt_trans _ _ _ Hlt H') in Hup'.
  - split.
    + destruct Hp as [[-> ->]|[(w & st' & Hw & Heq) _]].
      * exists v, st. split; [apply lookup_insert_eq|]. by apply nonneg_not_above.
      * exists w, st'. split; [|done]. rewrite lookup_insert_ne; [done|].
        intros ->. congruence.
    + intros w st' Hw. destruct (decide (v = w)) as [<-|Hne].
      * rewrite lookup_insert_eq in Hw. by injection Hw as <-.
      * rewrite lookup_insert_ne in Hw by done.
        destruct Hp as [[-> _]|[_ Hup]]; [by rewrite lookup_empty in Hw|].
        by eapply Hup.
Qed.

Lemma fold_result_consistent c r c1 :
  summary_consistent c →
  (∀ d, is_Some (stats r !! d) → entry c (variable r) d = None) →
  (∀ d st, stats r !! d = Some st →
     SFleb (S754_zero false) (missing_percentage st) = true) →
  fold_result c (Some r) = Returned c1 → summary_consistent c1.
Proof.
  intros Hc Hfresh Hnn (m & Hm & ->)%fold_result_Returned d.
  cbn [daily_summary variables]. rewrite update_daily_summary_lookup.
  unfold date_total. rewrite (date_column_insert _ _ _ _ _ Hm).
  specialize (Hc d). specialize (Hfresh d).
  destruct (stats r !! d) as [st|] eqn:Hst; [|exact Hc].
  assert (date_column (variables c) d !! variable r = None) as Hcol.
  { rewrite date_column_lookup. apply Hfresh. eauto. }
  unfold add_stats. cbn [total_missing variables_affected max_percentage].
  rewrite date_total_insert, dom_insert_L by done.
  destruct (daily_summary c !! d) as [s|]; simpl.
  - destruct Hc as (Ht & Ha & Hmax). split_and!.
    + by rewrite Ht.
    + by rewrite Ha.
    + apply true_max_insert; eauto.
  - rewrite Hc. split_and!.
    + by rewrite map_fold_empty.
    + by rewrite dom_empty_L.
    + apply true_max_insert; eauto.
Qed.

Lemma collision_free_cons x rs : collision_free (x :: rs) → collision_free rs.
Proof.
  intros H v d. specialize (H v d). rewrite writers_cons, length_app in H. lia.
Qed.

Lemma summary_consistent_fresh c :
  daily_summary c = ∅ → (∀ v m, variables c !! v = Some m → m = ∅) →
  summary_consistent c.
Proof.
  intros Hs Hv d. rewrite Hs, lookup_empty. apply map_eq. intros v.
  rewrite date_column_lookup, lookup_empty.
  destruct (variables c !! v) as [m|] eqn:Hm; [|done].
  simpl. by rewrite (Hv _ _ Hm), lookup_empty.
Qed.

(** C2. When no key (variable, date) is written twice, neither by two
    results nor by a result over a record already stored, and no
    percentage is below zero, the folds keep the daily summary in step
    with the stored records: the total of a date is the sum of the counts
    of its records, the affected variables are those with a record, and
    the maximum is the largest percentage among them. *)
Theorem daily_summary_consistent (c : catalog)
    (rs : list (option file_result)) (c' : catalog) :
  summary_consistent c → collision_free rs → writes_fresh c rs →
  percentages_nonneg rs → aggregate c rs = Returned c' →
  summary_consistent c'.
Proof.
  revert c. induction rs as [|x rs IH]; intros c Hc Hfree Hfresh Hnn Hagg.
  - by injection Hagg as <-.
  - rewrite aggregate_cons in Hagg.
    destruct (fold_result c x) as [c1|] eqn:Hx; [|done]. simpl in Hagg.
    apply (IH c1); try done.
    + destruct x as [r|]; [|by injection Hx as <-].
      apply (fold_result_consistent c r c1); try done.
      * intros d [st Hst]. apply Hfresh. rewrite writers_cons.
        unfold writes. simpl. by rewrite decide_True, Hst.
      * intros d st Hst. apply (Hnn r d st); [left|done].
    + by eapply collision_free_cons.
    + intros v d Hw. rewrite (fold_result_entry _ _ _ _ _ Hx).
      specialize (Hfree v d). specialize (Hfresh v d).
      rewrite writers_cons in Hfree, Hfresh. rewrite length_app in Hfree.
      destruct (writes v d x); simpl in *.
      * destruct (writers v d rs); [done|simpl in Hfree; lia].
      * by apply Hfresh.
    + intros r d st Hr. apply Hnn. by right.
Qed.

Lemma daily_summary_consistent_witness :
  ∃ c', aggregate sample_catalog [Some air_first; None; Some hgt_first]
          = Returned c' ∧
        summary_consistent c'.
Proof.
  eexists. split.
  - vm_compute. reflexivity.
  - apply (daily_summary_consistent sample_catalog
             [Some air_first; None; Some hgt_first]).
    + apply summary_consistent_fresh; [reflexivity|].
      intros v m. unfold sample_catalog, register_folder, new_catalog.
      cbn [variables]. rewrite !lookup_insert, lookup_empty.
      repeat case_decide; congruence.
    + intros v d. unfold writers, writes. simpl.
      destruct (decide ("air" = v)) as [Ha|Ha], (decide ("hgt" = v)) as [Hh|Hh];
        try congruence; simpl;
        repeat (match goal with
                | |- context [(?m !! d)] => destruct (m !! d)
                end; simpl); lia.
    + intros v d _. unfold entry, sample_catalog, register_folder, new_catalog.
      cbn [variables]. rewrite !lookup_insert, lookup_empty.
      repeat case_decide; simpl; by rewrite ?lookup_empty.
    + intros r d st Hr Hst.
      apply elem_of_cons in Hr as [[= ->]|Hr];
        [|apply elem_of_cons in Hr as [[=]|Hr];
          apply elem_of_cons in Hr as [[= ->]|Hr]; [|by apply elem_of_nil in Hr]];
        cbn [stats air_first hgt_first] in Hst;
        apply lookup_singleton_Some in Hst as [_ <-]; vm_compute; reflexivity.
    + vm_compute. reflexivity.
Defined.

Lemma daily_total_counts_overwritten :
  ∃ c', aggregate sample_catalog [Some air_first; Some air_second]
          = Returned c' ∧
        entry c' "air" "2020-01-02" = Some (mk_day_stats 2 4 (float_of_Z 50)) ∧
        entry c' "hgt" "2020-01-02" = None ∧
        total_missing <$> daily_summary c' !! "2020-01-02" = Some 3 ∧
        date_total (variables c') "2020-01-02" = 2.
Proof.
  eexists. split_and!.
  - vm_compute. reflexivity.
  - vm_compute. reflexivity.
  - vm_compute. reflexivity.
  - vm_compute. reflexivity.
  - vm_compute. reflexivity.
Qed.

(** * Further properties *)

(** ** The records of one file *)

Lemma slice_missing_bounds data fill_value time_idx :
  0 ≤ slice_missing data fill_value time_idx ≤ slice_points data time_idx.
Proof.
  unfold slice_missing, slice_points, np_count_nonzero, np_size.
  split; [lia|]. apply inj_le.
  etransitivity; [apply length_filter|].
  assert (length (flat (missing_mask fill_value (np_index data time_idx))) =
          length (flat (np_index data time_idx))) as ->.
  { destruct fill_value as [v|]; unfold missing_mask, np_ior, np_isnan,
      np_eq_scalar; cbn [flat].
    - rewrite zip_with_orb_fmap. apply length_fmap.
    - apply length_fmap. }
  unfold np_index. cbn [flat shape]. rewrite length_take. lia.
Qed.

Lemma day_loop_last ds data fill_value date idxs : ∀ acc res,
  day_loop ds data fill_value idxs acc = Returned res →
  res !! date =
    match last (filter (λ i, slice_writes ds data fill_value date i) idxs) with
    | Some i => Some (slice_stats data fill_value i)
    | None => acc !! date
    end.
Proof.
  induction idxs as [|i idxs IH]; intros acc res Hloop.
  - by injection Hloop as <-.
  - cbn [day_loop] in Hloop. rewrite day_step_unfold in Hloop.
    destruct (0 <? slice_missing data fill_value i) eqn:Hpos.
    + destruct (date_at ds i) as [d|] eqn:Hd; [|done].
      rewrite (IH _ _ Hloop).
      destruct (decide (d = date)) as [->|Hne].
      * rewrite filter_cons_True.
        2:{ unfold slice_writes. rewrite Hpos, Hd.
            by rewrite bool_decide_eq_true_2. }
        rewrite last_cons. destruct (last (filter _ idxs)); [done|].
        by rewrite lookup_insert_eq.
      * rewrite filter_cons_False.
        2:{ unfold slice_writes. rewrite Hd.
            rewrite bool_decide_eq_false_2 by congruence. simpl. intros []. }
        by rewrite lookup_insert_ne.
    + rewrite filter_cons_False; [by apply IH|].
      unfold slice_writes. rewrite Hpos, andb_false_r. intros [].
Qed.

Lemma day_loop_Returned ds data fill_value idxs : ∀ acc,
  (∃ res, day_loop ds data fill_value idxs acc = Returned res) ↔
  ∀ i, i ∈ idxs → ¬ slice_fails ds data fill_value i.
Proof.
  induction idxs as [|i idxs IH]; intros acc.
  - split; [|by eexists]. intros _ i Hi. by apply elem_of_nil in Hi.
  - cbn [day_loop]. rewrite day_step_unfold. unfold slice_fails in *.
    destruct (0 <? slice_missing data fill_value i) eqn:Hpos.
    + apply Z.ltb_lt in Hpos. destruct (date_at ds i) as [d|e] eqn:Hd.
      * rewrite IH. split.
        -- intros H j [->|Hj]%elem_of_cons; [|by apply H].
           intros [_ Hno]. by apply (Hno d).
        -- intros H j Hj. apply H. by right.
      * split; [by intros [? ?]|]. intros H. exfalso. apply (H i); [left|].
        split; [done|]. intros d. by rewrite Hd.
    + apply Z.ltb_ge in Hpos. rewrite IH. split.
      * intros H j [->|Hj]%elem_of_cons; [|by apply H]. intros [? _]. lia.
      * intros H j Hj. apply H. by right.
Qed.

Lemma day_loop_Raised ds data fill_value idxs : ∀ acc e,
  day_loop ds data fill_value idxs acc = Raised e →
  ∃ i, i ∈ idxs ∧ slice_fails ds data fill_value i.
Proof.
  induction idxs as [|i idxs IH]; intros acc e Hloop; [done|].
  cbn [day_loop] in Hloop. rewrite day_step_unfold in Hloop.
  destruct (0 <? slice_missing data fill_value i) eqn:Hpos.
  - apply Z.ltb_lt in Hpos. destruct (date_at ds i) as [d|e'] eqn:Hd.
    + destruct (IH _ _ Hloop) as (j & Hj & Hfail). exists j. split; [by right|done].
    + exists i. split; [left|]. split; [done|]. intros d. by rewrite Hd.
  - destruct (IH _ _ Hloop) as (j & Hj & Hfail). exists j. split; [by right|done].
Qed.

Lemma primary_variable_None ds :
  primary_variable ds = None ↔
  Forall (λ p, fst p ∈ exclude_vars) (ds_variables ds).
Proof.
  split.
  - intros Hp.
    destruct (decide (Forall (λ p, fst p ∈ exclude_vars) (ds_variables ds)))
      as [|Hn]; [done|].
    destruct (first_not_excluded _ Hn) as (pre & name & v & post & Hl & Hpre & Hname).
    destruct ds as [l t]. cbn [ds_variables] in Hl. subst l.
    destruct (main_vars_first pre name v post t Hpre Hname) as [_ Hsome].
    congruence.
  - intros Hall%main_vars_nil. unfold primary_variable. by rewrite Hall.
Qed.

(** X1. The analysis of a file yields the null result in exactly three
    cases: the file cannot be opened, all its variable names are
    excluded, or its three-axis main variable has a time slice with a
    missing point whose date cannot be read (no time coordinate, an index
    beyond it, or a time that does not render).  One such slice discards
    the records of all the others. *)
Theorem analyze_null_cases (f : nc_file) :
  analyze_netcdf_file f = None ↔
  content f = None ∨
  ∃ ds, content f = Some ds ∧
    (Forall (λ p, fst p ∈ exclude_vars) (ds_variables ds) ∨
     ∃ v i, primary_variable ds = Some v ∧
       length (shape (values v)) = 3%nat ∧
       (i < hd 0 (shape (values v)))%nat ∧
       slice_fails ds (values v) (fill_value_of (attrs v)) i).
Proof.
  split.
  - intros Hnone. destruct (content f) as [ds|] eqn:Hc; [right|by left].
    exists ds. split; [done|].
    destruct (primary_variable ds) as [v|] eqn:Hp;
      [right|left; by apply primary_variable_None].
    unfold analyze_netcdf_file in Hnone.
    rewrite (analyze_netcdf_file_primary f ds v Hc Hp) in Hnone.
    unfold analyze_main_var in Hnone.
    destruct (decide (length (shape (values v)) = 3%nat)) as [H3|H3]; [|done].
    destruct (day_loop _ _ _ _ _) as [res|e] eqn:Hloop; [done|].
    destruct (day_loop_Raised _ _ _ _ _ _ Hloop) as (i & Hi & Hfail).
    exists v, i. split_and!; try done. apply elem_of_seq in Hi. lia.
  - intros [Hc|(ds & Hc & [Hall|(v & i & Hp & H3 & Hi & Hfail)])].
    + unfold analyze_netcdf_file, analyze_try. by rewrite Hc.
    + unfold analyze_netcdf_file, analyze_try, analyze_dataset.
      apply main_vars_nil in Hall. by rewrite Hc, Hall.
    + unfold analyze_netcdf_file.
      rewrite (analyze_netcdf_file_primary f ds v Hc Hp).
      unfold analyze_main_var. rewrite decide_True by done.
      destruct (day_loop _ _ _ _ _) as [res|e] eqn:Hloop; [|done].
      exfalso.
      assert (∃ res, day_loop ds (values v) (fill_value_of (attrs v))
                (seq 0 (hd 0%nat (shape (values v)))) ∅ = Returned res)
        as Hret by eauto.
      destruct (day_loop_Returned ds (values v) (fill_value_of (attrs v))
                  (seq 0 (hd 0%nat (shape (values v)))) ∅) as [Hno _].
      apply (Hno Hret i); [|done]. apply elem_of_seq. lia.
Qed.

(** X2. In the result of a file the variable is the name of the folder
    and the file name that of the file, whatever the variables inside are
    called; the record of a date is the one of the last time slice of
    that date with a missing point (an earlier slice of the same date is
    overwritten), and a main variable that does not have three axes
    leaves every date without a record. *)
Theorem analyze_records (f : nc_file) (r : file_result) :
  analyze_netcdf_file f = Some r →
  variable r = parent_name f ∧ filename r = file_name f ∧
  ∃ ds v, content f = Some ds ∧ primary_variable ds = Some v ∧
    ∀ date, stats r !! date =
      if decide (length (shape (values v)) = 3%nat) then
        slice_stats (values v) (fill_value_of (attrs v)) <$>
          last (filter (λ i, slice_writes ds (values v)
                               (fill_value_of (attrs v)) date i)
                  (seq 0 (hd 0%nat (shape (values v)))))
      else None.
Proof.
  intros Hf.
  destruct (analyze_netcdf_file_Some _ _ Hf) as (ds & v & Hc & Hp & Hv).
  destruct (analyze_main_var_stats _ _ _ _ _ Hv) as (Hvar & Hname & _).
  split_and!; [done|done|]. exists ds, v. split_and!; [done|done|].
  intros date. unfold analyze_main_var in Hv. case_decide as H3.
  - destruct (day_loop _ _ _ _ _) as [res|] eqn:Hloop; [|done].
    injection Hv as <-. cbn [stats].
    rewrite (day_loop_last _ _ _ date _ _ _ Hloop), lookup_empty.
    by destruct (last _).
  - injection Hv as <-. apply lookup_empty.
Qed.

Lemma analyze_records_witness :
  variable (mk_file_result "air" "air.2020.nc"
              (<["2020-01-02" := mk_day_stats 1 4 (float_of_Z 25)]>
                 (<["2020-01-03" := mk_day_stats 4 4 (float_of_Z 100)]> ∅)))
    = parent_name scenario_file ∧
  filename (mk_file_result "air" "air.2020.nc"
              (<["2020-01-02" := mk_day_stats 1 4 (float_of_Z 25)]>
                 (<["2020-01-03" := mk_day_stats 4 4 (float_of_Z 100)]> ∅)))
    = file_name scenario_file ∧
  ∃ ds v, content scenario_file = Some ds ∧ primary_variable ds = Some v ∧
    ∀ date,
      stats (mk_file_result "air" "air.2020.nc"
               (<["2020-01-02" := mk_day_stats 1 4 (float_of_Z 25)]>
                  (<["2020-01-03" := mk_day_stats 4 4 (float_of_Z 100)]> ∅)))
        !! date =
      if decide (length (shape (values v)) = 3%nat) then
        slice_stats (values v) (fill_value_of (attrs v)) <$>
          last (filter (λ i, slice_writes ds (values v)
                               (fill_value_of (attrs v)) date i)
                  (seq 0 (hd 0%nat (shape (values v)))))
      else None.
Proof.
  apply (analyze_records scenario_file). vm_compute. reflexivity.
Defined.

(** X3. Every record of a result counts at least one and at most all
    points of a time slice, and its number of points is the product of the
    two inner axes of the main variable. *)
Theorem record_counts (f : nc_file) (r : file_result) (date : string)
    (st : day_stats) :
  analyze_netcdf_file f = Some r → stats r !! date = Some st →
  0 < missing_count st ≤ total_points st ∧
  ∃ ds v T Y X, content f = Some ds ∧ primary_variable ds = Some v ∧
    shape (values v) = [T; Y; X] ∧ total_points st = Z.of_nat (Y * X).
Proof.
  intros Hf Hst.
  destruct (analyze_netcdf_file_Some _ _ Hf) as (ds & v & Hc & Hp & Hv).
  unfold analyze_main_var in Hv.
  destruct (decide (length (shape (values v)) = 3%nat)) as [H3|H3];
    [|injection Hv as <-; cbn [stats] in Hst; by rewrite lookup_empty in Hst].
  destruct (day_loop _ _ _ _ _) as [res|] eqn:Hloop; [|done].
  injection Hv as <-. cbn [stats] in Hst.
  destruct (day_loop_entries _ _ _ _ _ _ Hloop _ _ Hst)
    as [Hacc|(i & Hi & Hd & Hpos & ->)]; [by rewrite lookup_empty in Hacc|].
  cbn [slice_stats missing_count total_points].
  split; [split; [done | apply slice_missing_bounds]|].
  exists ds, v.
  destruct (shape (values v)) as [|T [|Y [|X [|]]]] eqn:Hsh; try done.
  exists T, Y, X. split_and!; try done.
  unfold slice_points, np_size, np_index. cbn [shape]. rewrite Hsh. simpl.
  f_equal. lia.
Qed.

Lemma record_counts_witness :
  0 < missing_count (mk_day_stats 1 4 (float_of_Z 25))
    ≤ total_points (mk_day_stats 1 4 (float_of_Z 25)) ∧
  ∃ ds v T Y X, content scenario_file = Some ds ∧
    primary_variable ds = Some v ∧ shape (values v) = [T; Y; X] ∧
    total_points (mk_day_stats 1 4 (float_of_Z 25)) = Z.of_nat (Y * X).
Proof.
  apply (record_counts scenario_file
           (mk_file_result "air" "air.2020.nc"
              (<["2020-01-02" := mk_day_stats 1 4 (float_of_Z 25)]>
                 (<["2020-01-03" := mk_day_stats 4 4 (float_of_Z 100)]> ∅)))
           "2020-01-02").
  - vm_compute. reflexivity.
  - vm_compute. reflexivity.
Defined.

(** ** Null results and missing mappings *)

Lemma aggregate_filter_null rs : ∀ c,
  aggregate c (filter is_Some rs) = aggregate c rs.
Proof.
  induction rs as [|[r|] rs IH]; intros c; [done| |].
  - rewrite filter_cons_True by eauto. rewrite !aggregate_cons.
    destruct (fold_result c (Some r)); simpl; [apply IH|done].
  - rewrite filter_cons_False by (by intros [? ?]). rewrite aggregate_cons.
    simpl. apply IH.
Qed.

Lemma filter_fmap_list {A B} (f : A → B) (P : B → Prop)
    `{!∀ y, Decision (P y)} (l : list A) :
  filter P (f <$> l) = f <$> filter (λ x, P (f x)) l.
Proof.
  induction l as [|x l IH]; [done|].
  rewrite fmap_cons, !filter_cons. destruct (decide (P (f x))); simpl.
  - by rewrite IH.
  - apply IH.
Qed.

Lemma process_folder_drop_null fs c g :
  process_folder (drop_null fs) c g = process_folder fs c g.
Proof.
  unfold process_folder, drop_null. destruct (fs g) as [files|]; simpl; [|done].
  rewrite <- (aggregate_filter_null (folder_results g files)).
  f_equal. unfold folder_results. by rewrite filter_fmap_list.
Qed.

Lemma process_folders_drop_null fs folders : ∀ c,
  process_folders (drop_null fs) c folders = process_folders fs c folders.
Proof.
  induction folders as [|g folders IH]; intros c; [done|].
  cbn [process_folders]. rewrite process_folder_drop_null.
  destruct (process_folder fs c g); [apply IH|done].
Qed.

(** X4. A file whose analysis yields the null result contributes nothing:
    the catalog is the one obtained when every such file is removed from
    its folder. *)
Theorem create_daily_catalog_drop_null (to_list : gset string → list string)
    (now base : string) (fs : listing) :
  create_daily_catalog to_list now base (drop_null fs) =
  create_daily_catalog to_list now base fs.
Proof.
  unfold create_daily_catalog. by rewrite process_folders_drop_null.
Qed.

(** X5. The folds raise exactly when some result that is not null names a
    variable without a mapping, and what they raise is a key error;
    otherwise they return a catalog with the same metadata and the same
    variables as keys. *)
Theorem aggregate_key_error (c : catalog) (rs : list (option file_result)) :
  match aggregate c rs with
  | Returned c' =>
      (∀ r, Some r ∈ rs → is_Some (variables c !! variable r)) ∧
      cat_metadata c' = cat_metadata c ∧
      dom (variables c') = dom (variables c)
  | Raised e =>
      e = KeyError ∧ ∃ r, Some r ∈ rs ∧ variables c !! variable r = None
  end.
Proof.
  revert c. induction rs as [|x rs IH]; intros c.
  - simpl. split_and!; try done. intros r Hr. by apply elem_of_nil in Hr.
  - rewrite aggregate_cons. destruct x as [r|]; simpl.
    + destruct (variables c !! variable r) as [m|] eqn:Hm; simpl.
      * set (c1 := mk_catalog _ _ _).
        assert (dom (variables c1) = dom (variables c)) as Hdom.
        { unfold c1. cbn [variables]. rewrite dom_insert_L.
          apply subseteq_union_1_L, singleton_subseteq_l, elem_of_dom. eauto. }
        specialize (IH c1). destruct (aggregate c1 rs) as [c'|e].
        -- destruct IH as (Hreg & Hmd & Hd). split_and!; [|done|congruence].
           intros r' [[= ->]|Hr']%elem_of_cons; [eauto|].
           apply elem_of_dom. rewrite <- Hdom. apply elem_of_dom. by apply Hreg.
        -- destruct IH as (-> & r' & Hr' & Hnone). split; [done|].
           exists r'. split; [by right|].
           apply not_elem_of_dom. rewrite <- Hdom. by apply not_elem_of_dom.
      * split; [done|]. exists r. split; [left|done].
    + specialize (IH c). destruct (aggregate c rs) as [c'|e].
      * destruct IH as (Hreg & Hmd & Hd). split_and!; [|done|done].
        intros r' [[=]|Hr']%elem_of_cons. by apply Hreg.
      * destruct IH as (-> & r' & Hr' & Hnone). split; [done|].
        exists r'. split; [by right|done].
Qed.

(** ** The daily summary in closed form *)

Lemma foldl_add_stats ws : ∀ s0,
  foldl (λ s w, add_stats (fst w) (snd w) s) s0 ws =
  mk_day_summary
    (total_missing s0 + sum_counts ws)
    (variables_affected s0 ∪ list_to_set (fst <$> ws))
    (foldl py_max (max_percentage s0) ((λ w, missing_percentage (snd w)) <$> ws)).
Proof.
  induction ws as [|[v st] ws IH]; intros s0.
  - destruct s0 as [t a p]. simpl. f_equal; [lia|].
    by rewrite (right_id_L ∅ (∪)).
  - cbn [foldl]. rewrite IH. unfold add_stats.
    cbn [total_missing variables_affected max_percentage fst snd].
    rewrite !fmap_cons. cbn [sum_counts foldr list_to_set foldl fst snd].
    f_equal; [unfold sum_counts; lia|].
    by rewrite (comm_L (∪) {[v]} (variables_affected s0)), <- (assoc_L (∪)).
Qed.

Lemma date_writes_cons d x rs :
  date_writes d (x :: rs) =
  option_list (x ≫= λ r, (λ st, (variable r, st)) <$> stats r !! d)
    ++ date_writes d rs.
Proof. unfold date_writes. simpl. by destruct (x ≫= _). Qed.

Lemma aggregate_summary_lookup rs : ∀ c c',
  aggregate c rs = Returned c' →
  ∀ d, daily_summary c' !! d =
    match date_writes d rs with
    | [] => daily_summary c !! d
    | ws => Some (foldl (λ s w, add_stats (fst w) (snd w) s)
                    (default new_summary (daily_summary c !! d)) ws)
    end.
Proof.
  induction rs as [|x rs IH]; intros c c' Hagg d.
  - by injection Hagg as <-.
  - rewrite aggregate_cons in Hagg.
    destruct (fold_result c x) as [c1|] eqn:Hx; [|done]. simpl in Hagg.
    rewrite (IH _ _ Hagg d), date_writes_cons.
    destruct x as [r|]; [|by injection Hx as <-].
    apply fold_result_Returned in Hx as (m & Hm & ->).
    cbn [daily_summary mbind option_bind].
    rewrite update_daily_summary_lookup.
    destruct (stats r !! d) as [st|]; simpl; [|done].
    by destruct (date_writes d rs).
Qed.

(** X6. After the folds the summary of a date that no result mentions is
    as before; for any other date the total is the earlier total plus the
    counts of all records folded for that date (the overwritten ones
    too), the affected variables are the earlier ones and the variables of
    those records, and the maximum is the running maximum over them. *)
Theorem aggregate_summary (c : catalog) (rs : list (option file_result)) :
  match aggregate c rs with
  | Returned c' =>
      ∀ d, daily_summary c' !! d =
        match date_writes d rs with
        | [] => daily_summary c !! d
        | ws =>
            let s0 := default new_summary (daily_summary c !! d) in
            Some (mk_day_summary
                    (total_missing s0 + sum_counts ws)
                    (variables_affected s0 ∪ list_to_set (fst <$> ws))
                    (foldl py_max (max_percentage s0)
                       ((λ w, missing_percentage (snd w)) <$> ws)))
        end
  | Raised _ => True
  end.
Proof.
  destruct (aggregate c rs) as [c'|] eqn:Hagg; [|done].
  intros d. rewrite (aggregate_summary_lookup _ _ _ Hagg d).
  destruct (date_writes d rs) as [|w ws]; [done|].
  cbv zeta. by rewrite foldl_add_stats.
Qed.

(** ** The order of the items of a dictionary *)

Lemma foldl_summary_step_lookup v (l : list (string * day_stats)) :
  NoDup (fst <$> l) → ∀ summ d,
  foldl (λ acc kv, summary_step v (fst kv) (snd kv) acc) summ l !! d =
  match (list_to_map l : gmap string day_stats) !! d with
  | Some st => Some (add_stats v st (default new_summary (summ !! d)))
  | None => summ !! d
  end.
Proof.
  induction l as [|[k st] l IH]; intros Hnd summ d.
  - cbn [list_to_map foldr foldl]. by rewrite lookup_empty.
  - rewrite fmap_cons in Hnd. apply NoDup_cons in Hnd as [Hk Hnd].
    cbn [foldl fst snd]. rewrite (IH Hnd), summary_step_lookup.
    cbn [list_to_map foldr]. destruct (decide (k = d)) as [<-|Hne].
    + rewrite lookup_insert_eq.
      by rewrite (not_elem_of_list_to_map_1 _ _ Hk).
    + by rewrite lookup_insert_ne.
Qed.

(** X7. The update of the daily summary by one result does not depend on
    the order in which the dates of the result are visited: every
    enumeration of its items gives the same summary. *)
Theorem update_daily_summary_any_order (var_name : string)
    (daily_stats : gmap string day_stats) (summ : gmap string day_summary)
    (items : list (string * day_stats)) :
  items ≡ₚ map_to_list daily_stats →
  foldl (λ acc kv, summary_step var_name (fst kv) (snd kv) acc) summ items =
  update_daily_summary var_name daily_stats summ.
Proof.
  intros Hperm.
  assert (NoDup (fst <$> items)) as Hnd.
  { rewrite Hperm. apply NoDup_fst_map_to_list. }
  apply map_eq. intros d.
  rewrite (foldl_summary_step_lookup _ _ Hnd), update_daily_summary_lookup.
  by rewrite (list_to_map_proper _ _ Hnd Hperm), list_to_map_to_list.
Qed.

Lemma update_daily_summary_any_order_witness :
  foldl (λ acc kv, summary_step "air" (fst kv) (snd kv) acc) ∅
    [("2020-03-02", mk_day_stats 2 4 (float_of_Z 50));
     ("2020-03-01", mk_day_stats 1 4 (float_of_Z 25))] =
  update_daily_summary "air" (stats air_two_dates) ∅ ∧
  foldl (λ acc kv, summary_step "air" (fst kv) (snd kv) acc) ∅
    [("2020-03-01", mk_day_stats 1 4 (float_of_Z 25));
     ("2020-03-02", mk_day_stats 2 4 (float_of_Z 50))] =
  update_daily_summary "air" (stats air_two_dates) ∅.
Proof.
  split.
  - apply (update_daily_summary_any_order "air" (stats air_two_dates) ∅).
    vm_compute. first [apply Permutation_refl | apply perm_swap].
  - apply (update_daily_summary_any_order "air" (stats air_two_dates) ∅).
    vm_compute. first [apply Permutation_refl | apply perm_swap].
Defined.

(** ** The returned catalog *)

Lemma aggregate_same_variable g rs : ∀ c m,
  (∀ r, Some r ∈ rs → variable r = g) → variables c !! g = Some m →
  ∃ c', aggregate c rs = Returned c' ∧
    cat_metadata c' = cat_metadata c ∧
    variables c' =
      <[g := foldl (λ m r, dict_update m (stats r)) m (omap id rs)]>
        (variables c).
Proof.
  induction rs as [|x rs IH]; intros c m Hvar Hm.
  - exists c. split_and!; [done|done|]. simpl. by rewrite insert_id.
  - rewrite aggregate_cons. destruct x as [r|]; simpl.
    + assert (variable r = g) as Hr by (apply Hvar; left).
      rewrite Hr, Hm. simpl.
      set (c1 := mk_catalog _ _ _).
      destruct (IH c1 (dict_update m (stats r))) as (c' & Hagg & Hmd & Hv).
      { intros r' Hr'. apply Hvar. by right. }
      { unfold c1. cbn [variables]. apply lookup_insert_eq. }
      exists c'. split_and!; [done|done|].
      rewrite Hv. unfold c1. cbn [variables]. by rewrite insert_insert_eq.
    + destruct (IH c m) as (c' & Hagg & Hmd & Hv); [|done|by exists c'].
      intros r' Hr'. apply Hvar. by right.
Qed.

Lemma process_folders_variables fs folders :
  NoDup folders → ∀ c, ∃ c',
    process_folders fs c folders = Returned c' ∧
    created (cat_metadata c') = created (cat_metadata c) ∧
    base_path (cat_metadata c') = base_path (cat_metadata c) ∧
    ∀ g, variables c' !! g =
      if decide (g ∈ folders) then
        match fs g with
        | Some files =>
            Some (foldl (λ m r, dict_update m (stats r)) ∅
                    (omap id (folder_results g files)))
        | None => variables c !! g
        end
      else variables c !! g.
Proof.
  induction 1 as [|g0 rest Hfresh Hnd IH]; intros c.
  - exists c. by split_and!.
  - assert (∃ c1, process_folder fs c g0 = Returned c1 ∧
              created (cat_metadata c1) = created (cat_metadata c) ∧
              base_path (cat_metadata c1) = base_path (cat_metadata c) ∧
              (∀ g, g ≠ g0 → variables c1 !! g = variables c !! g) ∧
              variables c1 !! g0 =
                match fs g0 with
                | Some files =>
                    Some (foldl (λ m r, dict_update m (stats r)) ∅
                            (omap id (folder_results g0 files)))
                | None => variables c !! g0
                end) as (c1 & H1 & Hcr & Hbp & Hother & Hg0).
    { unfold process_folder. destruct (fs g0) as [files|]; [|by exists c].
      destruct (aggregate_same_variable g0 (folder_results g0 files)
                  (register_folder g0 c) ∅) as (c1 & Hagg & Hmd & Hv).
      { intros r. apply folder_results_variable. }
      { apply lookup_insert_eq. }
      exists c1. rewrite Hmd, Hv. split_and!; try done.
      - intros g Hg. cbn [register_folder variables].
        by rewrite !lookup_insert_ne.
      - apply lookup_insert_eq. }
    destruct (IH c1) as (c' & H' & Hcr' & Hbp' & Hv').
    exists c'. cbn [process_folders]. rewrite H1.
    split_and!; [done|congruence|congruence|].
    intros g. rewrite Hv'. destruct (decide (g = g0)) as [->|Hne].
    + rewrite (decide_False (P := g0 ∈ rest)) by done.
      rewrite decide_True by left. done.
    + destruct (decide (g ∈ rest)) as [Hin|Hnin].
      * rewrite decide_True by (by right).
        destruct (fs g); [done|]. by apply Hother.
      * rewrite decide_False; [by apply Hother|].
        by intros [?|?]%elem_of_cons.
Qed.

(** X8. The run always returns.  The metadata of the returned catalog
    carries the creation time and the base path it was started with; the
    variables are exactly the folders that exist, each bound to the
    records of its files merged in the order of the files, a later file
    overwriting the dates of an earlier one; a folder that does not exist
    has no mapping, and every processed variable has one. *)
Theorem returned_variables (to_list : gset string → list string)
    (now base : string) (fs : listing) :
  ∃ out,
    create_daily_catalog to_list now base fs = Returned out ∧
    created (out_metadata out) = now ∧
    base_path (out_metadata out) = base ∧
    (∀ g, out_variables out !! g =
       if decide (g ∈ var_folders) then
         (λ files, foldl (λ m r, dict_update m (stats r)) ∅
                     (omap id (folder_results g files))) <$> fs g
       else None) ∧
    (∀ g, g ∈ variables_processed (out_metadata out) ↔
          is_Some (out_variables out !! g)).
Proof.
  destruct (process_folders_variables fs var_folders var_folders_NoDup
              (new_catalog now base)) as (c' & Hrun & Hcr & Hbp & Hv).
  destruct (process_folders_spec fs var_folders var_folders_NoDup
              (new_catalog now base)) as (c'' & Hrun' & Hvp & _).
  assert (c'' = c') as -> by congruence.
  assert (∀ g, variables c' !! g =
            if decide (g ∈ var_folders) then
              (λ files, foldl (λ m r, dict_update m (stats r)) ∅
                          (omap id (folder_results g files))) <$> fs g
            else None) as Hv2.
  { intros g. rewrite Hv. cbn [new_catalog variables]. rewrite lookup_empty.
    destruct (decide (g ∈ var_folders)); [|done]. by destruct (fs g). }
  exists (finalize to_list c'). unfold create_daily_catalog. rewrite Hrun.
  split_and!; [done|done|done|done|].
  intros g. cbn [finalize out_metadata out_variables]. rewrite Hvp, Hv2.
  cbn [new_catalog cat_metadata variables_processed app].
  rewrite list_elem_of_filter. destruct (decide (g ∈ var_folders)) as [Hg|Hg].
  - rewrite fmap_is_Some. tauto.
  - split; [tauto|]. by intros [? ?].
Qed.

(** ** Affected variables *)

Lemma fold_result_affected c x c1 :
  affected_consistent c → fold_result c x = Returned c1 →
  affected_consistent c1.
Proof.
  intros Hc Hx d. specialize (Hc d).
  assert (∀ v, entry c1 v d = from_option Some (entry c v d) (writes v d x))
    as He by (intros v; by apply fold_result_entry).
  destruct x as [r|]; [|by injection Hx as <-].
  apply fold_result_Returned in Hx as (m & Hm & ->).
  cbn [daily_summary]. rewrite update_daily_summary_lookup.
  unfold writes in He. cbn [mbind option_bind] in He.
  destruct (stats r !! d) as [st|] eqn:Hst.
  - cbn [add_stats variables_affected]. split.
    + intros Hempty. apply (not_elem_of_empty (C := gset string) (variable r)).
      rewrite <- Hempty. apply elem_of_union_l, elem_of_singleton. done.
    + intros v. rewrite He, elem_of_union, elem_of_singleton.
      destruct (decide (variable r = v)) as [Hv|Hv].
      * simpl. split; [eauto|]. intros _. by left.
      * simpl. destruct (daily_summary c !! d) as [s|]; simpl.
        -- destruct Hc as [_ Hc]. rewrite <- Hc. split; [|by right].
           intros [?|?]; [congruence|done].
        -- rewrite Hc. split; [|by intros [? ?]].
           intros [?|?]; [congruence|]. by apply not_elem_of_empty in H.
  - assert (∀ v, entry (mk_catalog (cat_metadata c)
                          (<[variable r := dict_update m (stats r)]> (variables c))
                          (update_daily_summary (variable r) (stats r)
                             (daily_summary c))) v d = entry c v d) as He'.
    { intros v. rewrite He. by destruct (decide (variable r = v)). }
    destruct (daily_summary c !! d) as [s|].
    + destruct Hc as [Hne Hc]. split; [done|]. intros v. by rewrite He'.
    + intros v. by rewrite He'.
Qed.

Lemma aggregate_affected rs : ∀ c c',
  affected_consistent c → aggregate c rs = Returned c' →
  affected_consistent c'.
Proof.
  induction rs as [|x rs IH]; intros c c' Hc Hagg.
  - by injection Hagg as <-.
  - rewrite aggregate_cons in Hagg.
    destruct (fold_result c x) as [c1|] eqn:Hx; [|done]. simpl in Hagg.
    apply (IH c1); [|done]. by eapply fold_result_affected.
Qed.

Lemma register_folder_affected g c :
  affected_consistent c → variables c !! g = None →
  affected_consistent (register_folder g c).
Proof.
  intros Hc Hg d. specialize (Hc d). cbn [register_folder daily_summary].
  assert (∀ v, entry (register_folder g c) v d = entry c v d) as He.
  { intros v. unfold entry. cbn [register_folder variables].
    destruct (decide (g = v)) as [<-|Hne].
    - rewrite lookup_insert_eq, Hg. simpl. apply lookup_empty.
    - by rewrite lookup_insert_ne. }
  destruct (daily_summary c !! d) as [s|].
  - destruct Hc as [Hne Hc]. split; [done|]. intros v. by rewrite He.
  - intros v. by rewrite He.
Qed.

Lemma process_folders_affected fs folders :
  NoDup folders → ∀ c,
  affected_consistent c → (∀ g, g ∈ folders → variables c !! g = None) →
  ∃ c', process_folders fs c folders = Returned c' ∧ affected_consistent c'.
Proof.
  induction 1 as [|g0 rest Hfresh Hnd IH]; intros c Hc Hnone.
  - by exists c.
  - destruct (process_folder_spec fs c g0) as (c1 & H1 & _ & Hother & _).
    assert (affected_consistent c1) as Hc1.
    { unfold process_folder in H1. destruct (fs g0) as [files|].
      - apply (aggregate_affected _ _ _ (register_folder_affected g0 c Hc
                 (Hnone g0 (list_elem_of_here _ _))) H1).
      - by injection H1 as <-. }
    destruct (IH c1 Hc1) as (c' & H' & Hc').
    { intros g Hg. rewrite Hother; [apply Hnone; by right|].
      intros ->. done. }
    exists c'. cbn [process_folders]. by rewrite H1.
Qed.

(** X9. In the catalog the run builds, whether or not files overlap in
    their dates, a date has a summary exactly when some variable holds a
    record for it, and the affected variables of the date are exactly the
    variables that hold one. *)
Theorem returned_affected_variables (now base : string) (fs : listing) :
  ∃ c, process_folders fs (new_catalog now base) var_folders = Returned c ∧
    ∀ d, match daily_summary c !! d with
         | None => ∀ v, entry c v d = None
         | Some s =>
             variables_affected s ≠ ∅ ∧
             ∀ v, v ∈ variables_affected s ↔ is_Some (entry c v d)
         end.
Proof.
  apply (process_folders_affected fs var_folders var_folders_NoDup).
  - intros d. cbn [new_catalog daily_summary]. rewrite lookup_empty.
    intros v. unfold entry. cbn [new_catalog variables].
    by rewrite lookup_empty.
  - intros g _. apply lookup_empty.
Qed.

(** ** Fill values at the edges *)

Lemma feq_nan_r x : feq x S754_nan = false.
Proof. by destruct x as [[]|[]| |[]]. Qed.

Lemma feq_zero_r x s :
  feq x (S754_zero s) = match x with S754_zero _ => true | _ => false end.
Proof. by destruct x as [[]|[]| |[]], s. Qed.

(** X10. A fill value that is itself not-a-number flags nothing beyond the
    not-a-number points, since no value compares equal to it; a fill
    value of zero flags the zeros of either sign. *)
Theorem fill_value_edge_cases (S : ndarray float) :
  missing_mask (Some S754_nan) S = missing_mask None S ∧
  ∀ s, flat (missing_mask (Some (S754_zero s)) S) =
       (λ x, match x with
             | S754_nan | S754_zero _ => true
             | _ => false
             end) <$> flat S.
Proof.
  split.
  - unfold missing_mask, np_ior, np_isnan, np_eq_scalar. cbn [flat shape].
    f_equal. rewrite zip_with_orb_fmap. apply list_fmap_ext.
    intros _ x _. by rewrite feq_nan_r, orb_false_r.
  - intros s. unfold missing_mask, np_ior, np_isnan, np_eq_scalar.
    cbn [flat shape]. rewrite zip_with_orb_fmap. apply list_fmap_ext.
    intros _ x _. rewrite feq_zero_r. by destruct x.
Qed.

(** ** Percentages are not negative *)

Lemma shr_1_nonneg mrs : 0 ≤ shr_m mrs → 0 ≤ shr_m (shr_1 mrs).
Proof.
  destruct mrs as [m r s]. simpl.
  destruct m as [|[p|p|]|[p|p|]]; simpl; lia.
Qed.

Lemma iter_pos_shr_1_nonneg p : ∀ mrs,
  0 ≤ shr_m mrs → 0 ≤ shr_m (SpecFloat.iter_pos shr_1 p mrs).
Proof.
  induction p as [p IH|p IH|]; intros mrs Hm; simpl.
  - by apply IH, IH, shr_1_nonneg.
  - by apply IH, IH.
  - by apply shr_1_nonneg.
Qed.

Lemma shr_fexp_nonneg m e l :
  0 ≤ m → 0 ≤ shr_m (fst (shr_fexp prec emax m e l)).
Proof.
  intros Hm. unfold shr_fexp, shr.
  assert (0 ≤ shr_m (shr_record_of_loc m l)) as H0.
  { by destruct l as [|[]]. }
  destruct (fexp prec emax (Zdigits2 m + e) - e) as [|p|p]; simpl; try done.
  by apply iter_pos_shr_1_nonneg.
Qed.

Lemma round_nearest_even_nonneg m l : 0 ≤ m → 0 ≤ round_nearest_even m l.
Proof.
  intros Hm. unfold round_nearest_even.
  destruct l as [|[]]; try done; [destruct (Z.even m)|]; lia.
Qed.

Lemma binary_round_aux_nonneg m e l :
  0 ≤ m → nonneg_float (binary_round_aux prec emax false m e l).
Proof.
  intros Hm. unfold binary_round_aux.
  pose proof (shr_fexp_nonneg m e l Hm) as H1.
  destruct (shr_fexp prec emax m e l) as [mrs' e'] eqn:E1. simpl in H1.
  pose proof (shr_fexp_nonneg
                (round_nearest_even (shr_m mrs') (loc_of_shr_record mrs'))
                e' loc_Exact (round_nearest_even_nonneg _ _ H1)) as H2.
  destruct (shr_fexp prec emax _ e' loc_Exact) as [mrs'' e''] eqn:E2.
  simpl in H2. destruct (shr_m mrs'') as [|p|p]; simpl; [done| |lia].
  by destruct (e'' <=? emax - prec).
Qed.

Lemma float_of_Z_nonneg n : 0 ≤ n → nonneg_float (float_of_Z n).
Proof.
  intros Hn. unfold float_of_Z, binary_normalize.
  destruct n as [|p|p]; [done| |lia].
  unfold binary_round. destruct (shl_align _ _ _) as [mz ez].
  by apply binary_round_aux_nonneg.
Qed.

Lemma digits2_pos_lower p : 2 ^ (Z.pos (digits2_pos p) - 1) ≤ Z.pos p.
Proof.
  induction p as [p IH|p IH|]; simpl digits2_pos.
  - rewrite Pos2Z.inj_succ. replace (Z.succ (Z.pos (digits2_pos p)) - 1)
      with (Z.succ (Z.pos (digits2_pos p) - 1)) by lia.
    rewrite Z.pow_succ_r by lia. lia.
  - rewrite Pos2Z.inj_succ. replace (Z.succ (Z.pos (digits2_pos p)) - 1)
      with (Z.succ (Z.pos (digits2_pos p) - 1)) by lia.
    rewrite Z.pow_succ_r by lia. lia.
  - simpl. lia.
Qed.

Lemma digits2_pos_iter_xO p k :
  Z.pos (digits2_pos (Pos.iter xO p k)) = Z.pos (digits2_pos p) + Z.pos k.
Proof.
  induction k as [|k IH] using Pos.peano_ind.
  - simpl. lia.
  - rewrite Pos.iter_succ. simpl digits2_pos. lia.
Qed.

Lemma binary_round_aux_exact mz ez :
  Z.pos (digits2_pos mz) = 53 → -52 ≤ ez ≤ 0 →
  binary_round_aux prec emax false (Z.pos mz) ez loc_Exact =
  S754_finite false mz ez.
Proof.
  intros Hd He.
  assert (∀ m, Z.pos (digits2_pos m) = 53 →
            shr_fexp prec emax (Z.pos m) ez loc_Exact =
            (Build_shr_record (Z.pos m) false false, ez)) as Hshr.
  { intros m Hm. unfold shr_fexp. cbn [Zdigits2 shr_record_of_loc].
    rewrite Hm.
    replace (fexp prec emax (53 + ez) - ez) with 0; [done|].
    unfold fexp, SpecFloat.emin, prec, emax. lia. }
  unfold binary_round_aux. rewrite (Hshr mz Hd).
  cbn [shr_m loc_of_shr_record round_nearest_even]. rewrite (Hshr mz Hd).
  cbn [shr_m]. replace (ez <=? emax - prec) with true; [done|].
  symmetry. apply Z.leb_le. unfold emax, prec. lia.
Qed.

Lemma float_of_Z_finite n :
  0 < n < 2 ^ 53 → ∃ m e, float_of_Z n = S754_finite false m e.
Proof.
  intros [Hpos Hlt]. destruct n as [|p|p]; try lia.
  unfold float_of_Z, binary_normalize, binary_round.
  pose proof (digits2_pos_lower p) as Hlow.
  assert (Z.pos (digits2_pos p) ≤ 53) as Hd.
  { destruct (Z.le_gt_cases (Z.pos (digits2_pos p)) 53) as [|Hgt]; [done|].
    assert (2 ^ 53 ≤ 2 ^ (Z.pos (digits2_pos p) - 1))
      by (apply Z.pow_le_mono_r; lia).
    lia. }
  assert (fexp prec emax (Z.pos (digits2_pos p) + 0) =
          Z.pos (digits2_pos p) - 53) as ->.
  { unfold fexp, SpecFloat.emin, prec, emax. lia. }
  unfold shl_align.
  destruct (Z.pos (digits2_pos p) - 53 - 0) as [|k|k] eqn:Hk.
  - eexists _, _. apply binary_round_aux_exact; lia.
  - lia.
  - eexists _, _. apply binary_round_aux_exact; [|lia].
    rewrite digits2_pos_iter_xO. lia.
Qed.

Lemma fdiv_nonneg m e y :
  nonneg_float y → nonneg_float (fdiv (S754_finite false m e) y).
Proof.
  unfold fdiv, SFdiv. destruct y as [[]|[]| |[] m2 e2]; try done. intros _.
  simpl xorb.
  destruct (SFdiv_core_binary prec emax (Z.pos m) e (Z.pos m2) e2)
    as [[mz ez] lz] eqn:Hcore.
  apply binary_round_aux_nonneg.
  unfold SFdiv_core_binary in Hcore.
  destruct (Z.div_eucl _ (Z.pos m2)) as [q r] eqn:Hq.
  injection Hcore as <- _ _.
  match type of Hq with Z.div_eucl ?a _ = _ =>
    assert (0 ≤ a) as Ha;
    [| change q with (fst (q, r)); rewrite <- Hq;
       change (fst (Z.div_eucl a (Z.pos m2))) with (a / Z.pos m2);
       apply Z.div_pos; lia ]
  end.
  destruct (_ - _ - _) as [|s|s]; [lia| |lia].
  rewrite Z.shiftl_mul_pow2 by lia.
  apply Z.mul_nonneg_nonneg; [lia|]. apply Z.pow_nonneg. lia.
Qed.

Lemma fmul_nonneg x m e :
  nonneg_float x → nonneg_float (fmul x (S754_finite false m e)).
Proof.
  unfold fmul, SFmul. destruct x as [[]|[]| |[] m1 e1]; try done. intros _.
  simpl xorb. apply binary_round_aux_nonneg. lia.
Qed.

Lemma py_round2_nonneg x : nonneg_float x → nonneg_float (py_round2 x).
Proof.
  destruct x as [[]|[]| |[] m e]; try done. intros _. unfold py_round2.
  destruct (div_half_even _ _) as [|n|n]; try done.
  apply (fdiv_nonneg n 0 (S754_finite false 100 0)). done.
Qed.

Lemma percentage_nonneg mc tp :
  0 < mc < 2 ^ 53 → 0 ≤ tp → nonneg_float (percentage mc tp).
Proof.
  intros Hmc Htp. unfold percentage.
  destruct (float_of_Z_finite mc Hmc) as (m & e & ->).
  apply py_round2_nonneg.
  assert (∃ m100 e100, float_of_Z 100 = S754_finite false m100 e100)
    as (m100 & e100 & ->) by (apply float_of_Z_finite; lia).
  apply fmul_nonneg, fdiv_nonneg. by apply float_of_Z_nonneg.
Qed.

Lemma nonneg_float_leb x :
  nonneg_float x → SFleb (S754_zero false) x = true ∧ is_nan x = false.
Proof. by destruct x as [[]|[]| |[]]. Qed.

Lemma analyze_percentage_nonneg f r date st :
  analyze_netcdf_file f = Some r → stats r !! date = Some st →
  missing_count st < 2 ^ 53 →
  missing_percentage st = percentage (missing_count st) (total_points st) ∧
  nonneg_float (missing_percentage st).
Proof.
  intros Hf Hst Hlt.
  destruct (analyze_netcdf_file_Some _ _ Hf) as (ds & v & Hc & Hp & Hv).
  destruct (analyze_main_var_stats _ _ _ _ _ Hv) as (_ & _ & [Hempty|Hloop]).
  { by rewrite Hempty, lookup_empty in Hst. }
  destruct (day_loop_entries _ _ _ _ _ _ Hloop _ _ Hst)
    as [Hacc|(i & Hi & Hd & Hpos & ->)]; [by rewrite lookup_empty in Hacc|].
  cbn [slice_stats missing_count total_points missing_percentage] in *.
  split; [done|]. apply percentage_nonneg; [lia|].
  pose proof (slice_missing_bounds (values v) (fill_value_of (attrs v)) i). lia.
Qed.

(** X11. A percentage recorded by the analysis is never negative and
    never not-a-number, as long as the count stays below 2^53: it is the
    rounded quotient of two counts, the first of them positive. *)
Theorem recorded_percentage_nonneg (f : nc_file) (r : file_result)
    (date : string) (st : day_stats) :
  analyze_netcdf_file f = Some r → stats r !! date = Some st →
  missing_count st < 2 ^ 53 →
  SFleb (S754_zero false) (missing_percentage st) = true ∧
  is_nan (missing_percentage st) = false ∧
  flt (missing_percentage st) (S754_zero false) = false.
Proof.
  intros Hf Hst Hlt.
  destruct (analyze_percentage_nonneg f r date st Hf Hst Hlt) as [_ Hnn].
  destruct (missing_percentage st) as [[]|[]| |[]]; done.
Qed.

Lemma recorded_percentage_nonneg_witness :
  SFleb (S754_zero false) (missing_percentage (mk_day_stats 1 4 (float_of_Z 25)))
    = true ∧
  is_nan (missing_percentage (mk_day_stats 1 4 (float_of_Z 25))) = false ∧
  flt (missing_percentage (mk_day_stats 1 4 (float_of_Z 25))) (S754_zero false)
    = false.
Proof.
  apply (recorded_percentage_nonneg scenario_file
           (mk_file_result "air" "air.2020.nc"
              (<["2020-01-02" := mk_day_stats 1 4 (float_of_Z 25)]>
                 (<["2020-01-03" := mk_day_stats 4 4 (float_of_Z 100)]> ∅)))
           "2020-01-02").
  - vm_compute. reflexivity.
  - vm_compute. reflexivity.
  - vm_compute. reflexivity.
Defined.

(** ** The whole run keeps the summary exact *)

Lemma aggregate_keeps_consistent rs : ∀ c c',
  summary_consistent c → collision_free rs → writes_fresh c rs →
  percentages_nonneg rs → aggregate c rs = Returned c' →
  summary_consistent c'.
Proof.
  induction rs as [|x rs IH]; intros c c' Hc Hfree Hfresh Hnn Hagg.
  - by injection Hagg as <-.
  - rewrite aggregate_cons in Hagg.
    destruct (fold_result c x) as [c1|] eqn:Hx; [|done]. simpl in Hagg.
    apply (IH c1); try done.
    + destruct x as [r|]; [|by injection Hx as <-].
      apply (fold_result_consistent c r c1); try done.
      * intros d [st Hst]. apply Hfresh. rewrite writers_cons.
        unfold writes. simpl. by rewrite decide_True, Hst.
      * intros d st Hst. apply (Hnn r d st); [left|done].
    + by eapply collision_free_cons.
    + intros v d Hw. rewrite (fold_result_entry _ _ _ _ _ Hx).
      specialize (Hfree v d). specialize (Hfresh v d).
      rewrite writers_cons in Hfree, Hfresh. rewrite length_app in Hfree.
      destruct (writes v d x); simpl in *.
      * destruct (writers v d rs); [done|simpl in Hfree; lia].
      * by apply Hfresh.
    + intros r d st Hr. apply Hnn. by right.
Qed.

Lemma register_folder_consistent g c :
  summary_consistent c → variables c !! g = None →
  summary_consistent (register_folder g c).
Proof.
  intros Hc Hg d. specialize (Hc d).
  cbn [register_folder daily_summary variables]. unfold date_total.
  assert (date_column (<[g := ∅]> (variables c)) d =
          date_column (variables c) d) as ->; [|done].
  apply map_eq. intros v. rewrite !date_column_lookup.
  destruct (decide (g = v)) as [<-|Hne].
  - rewrite lookup_insert_eq, Hg. simpl. apply lookup_empty.
  - by rewrite lookup_insert_ne.
Qed.

Lemma writers_other g v d rs :
  (∀ r, Some r ∈ rs → variable r = g) → v ≠ g → writers v d rs = [].
Proof.
  intros Hvar Hne. induction rs as [|x rs IH]; [done|].
  rewrite writers_cons, IH, app_nil_r.
  - destruct x as [r|]; [|done]. unfold writes. simpl.
    rewrite decide_False; [done|]. rewrite (Hvar r); [done|left].
  - intros r Hr. apply Hvar. by right.
Qed.

Lemma folder_results_fresh g c files :
  writes_fresh (register_folder g c) (folder_results g files).
Proof.
  intros v d Hw. destruct (decide (v = g)) as [->|Hne].
  - unfold entry. cbn [register_folder variables].
    rewrite lookup_insert_eq. simpl. apply lookup_empty.
  - rewrite (writers_other g) in Hw; [done| |done].
    intros r. apply folder_results_variable.
Qed.

Lemma folder_results_nonneg g files :
  counts_bounded (folder_results g files) →
  percentages_nonneg (folder_results g files).
Proof.
  intros Hb r d st Hr Hst.
  assert (∃ f, analyze_netcdf_file f = Some r) as [f Hf].
  { unfold folder_results in Hr. apply list_elem_of_fmap in Hr as (x & Hx & _).
    eauto. }
  destruct (analyze_percentage_nonneg f r d st Hf Hst (Hb r d st Hr Hst))
    as [_ Hnn].
  by apply nonneg_float_leb.
Qed.

Lemma process_folders_consistent fs folders :
  (∀ g files, fs g = Some files →
     collision_free (folder_results g files) ∧
     counts_bounded (folder_results g files)) →
  NoDup folders → ∀ c,
  summary_consistent c → (∀ g, g ∈ folders → variables c !! g = None) →
  ∃ c', process_folders fs c folders = Returned c' ∧ summary_consistent c'.
Proof.
  intros Hfs. induction 1 as [|g0 rest Hfresh Hnd IH]; intros c Hc Hnone.
  - by exists c.
  - destruct (process_folder_spec fs c g0) as (c1 & H1 & _ & Hother & _).
    assert (summary_consistent c1) as Hc1.
    { unfold process_folder in H1. destruct (fs g0) as [files|] eqn:Hg0.
      - destruct (Hfs g0 files Hg0) as [Hfree Hb].
        apply (aggregate_keeps_consistent _ _ _
                 (register_folder_consistent g0 c Hc
                    (Hnone g0 (list_elem_of_here _ _)))
                 Hfree (folder_results_fresh g0 c files)
                 (folder_results_nonneg g0 files Hb) H1).
      - by injection H1 as <-. }
    destruct (IH c1 Hc1) as (c' & H' & Hc').
    { intros g Hg. rewrite Hother; [apply Hnone; by right|].
      intros ->. done. }
    exists c'. cbn [process_folders]. by rewrite H1.
Qed.

(** X12. When within every folder no two files hold a record for the same
    date, and the counts stay below 2^53, the catalog that the run builds
    has an exact daily summary: for every date the total is the sum of
    the counts stored for it under the variables, the affected variables
    are those that store a record for it, and the maximum is the largest
    stored percentage. *)
Theorem run_summary_consistent (now base : string) (fs : listing) :
  (∀ g files, fs g = Some files →
     collision_free (folder_results g files) ∧
     counts_bounded (folder_results g files)) →
  ∃ c, process_folders fs (new_catalog now base) var_folders = Returned c ∧
    ∀ d, match daily_summary c !! d with
         | None => date_column (variables c) d = ∅
         | Some s =>
             total_missing s = date_total (variables c) d ∧
             variables_affected s = dom (date_column (variables c) d) ∧
             true_max (max_percentage s) (date_column (variables c) d)
         end.
Proof.
  intros Hfs.
  apply (process_folders_consistent fs var_folders Hfs var_folders_NoDup).
  - apply summary_consistent_fresh; [done|]. intros v m.
    cbn [new_catalog variables]. by rewrite lookup_empty.
  - intros g _. apply lookup_empty.
Qed.

Lemma collision_free_singleton x : collision_free [x].
Proof.
  intros v d. rewrite writers_cons. unfold writers. simpl.
  destruct (writes v d x); simpl; lia.
Qed.

Lemma scenario_result g name :
  analyze_netcdf_file (mk_nc_file g name (Some scenario_dataset)) =
  Some (mk_file_result g name
          (<["2020-01-02" := mk_day_stats 1 4 (float_of_Z 25)]>
             (<["2020-01-03" := mk_day_stats 4 4 (float_of_Z 100)]> ∅))).
Proof. vm_compute. reflexivity. Qed.

Lemma scenario_counts_bounded g name :
  counts_bounded (folder_results g [(name, Some scenario_dataset)]).
Proof.
  intros r d st Hr Hst. unfold folder_results in Hr.
  rewrite list_fmap_singleton in Hr. cbn [fst snd] in Hr.
  rewrite scenario_result in Hr. apply list_elem_of_singleton in Hr.
  injection Hr as ->. cbn [stats] in Hst.
  apply lookup_insert_Some in Hst as [[_ <-]|[_ Hst]]; [done|].
  apply lookup_insert_Some in Hst as [[_ <-]|[_ Hst]]; [done|].
  by rewrite lookup_empty in Hst.
Qed.

Lemma run_summary_consistent_witness :
  ∃ c, process_folders two_folders (new_catalog "2024-01-01T00:00:00" "/data")
         var_folders = Returned c ∧
    ∀ d, match daily_summary c !! d with
         | None => date_column (variables c) d = ∅
         | Some s =>
             total_missing s = date_total (variables c) d ∧
             variables_affected s = dom (date_column (variables c) d) ∧
             true_max (max_percentage s) (date_column (variables c) d)
         end.
Proof.
  apply (run_summary_consistent "2024-01-01T00:00:00" "/data" two_folders).
  intros g files Hfs. unfold two_folders in Hfs.
  destruct (decide (g = "air")) as [->|?];
    [|destruct (decide (g = "hgt")) as [->|?]; [|discriminate Hfs]];
    injection Hfs as <-;
    (split; [apply collision_free_singleton | apply scenario_counts_bounded]).
Defined.

Example short_time_file_null : analyze_netcdf_file short_time_file = None.
Proof. vm_compute. reflexivity. Qed.

(** ** The order of the files of a folder *)

Lemma aggregate_permutation_eq c rs rs' :
  summaries_ok (daily_summary c) → rs ≡ₚ rs' → collision_free rs →
  aggregate c rs = aggregate c rs'.
Proof.
  intros Hok Hp Hfree.
  pose proof (aggregate_permutation rs rs' Hp c c (same_but_entries_refl c) Hok)
    as Hrel.
  destruct (aggregate c rs) as [c1|e1] eqn:H1,
    (aggregate c rs') as [c2|e2] eqn:H2; simpl in Hrel; try done;
    [|by rewrite Hrel].
  f_equal. apply catalog_eq; [done|]. intros v d.
  rewrite (aggregate_entry _ _ _ H1), (aggregate_entry _ _ _ H2).
  by rewrite (writers_single v d rs rs' Hp (Hfree v d)).
Qed.

Lemma folder_results_permutation g files files' :
  files ≡ₚ files' → folder_results g files ≡ₚ folder_results g files'.
Proof. intros H. unfold folder_results. by rewrite H. Qed.

Lemma register_folder_rel g c c' :
  same_but_entries c c' →
  same_but_entries (register_folder g c) (register_folder g c').
Proof.
  intros (Hm & Hd & Hs). split_and!; cbn [register_folder cat_metadata
    variables daily_summary]; [by rewrite Hm | | done].
  by rewrite !dom_insert_L, Hd.
Qed.

Lemma process_folder_ok fs c g c1 :
  summaries_ok (daily_summary c) → process_folder fs c g = Returned c1 →
  summaries_ok (daily_summary c1).
Proof.
  intros Hok. unfold process_folder. destruct (fs g) as [files|].
  - by apply aggregate_ok.
  - by intros [= <-].
Qed.

Lemma process_folders_perm fs fs' folders :
  listing_perm fs fs' → ∀ c c',
  same_but_entries c c' → summaries_ok (daily_summary c) →
  outcome_rel same_but_entries
    (process_folders fs c folders) (process_folders fs' c' folders).
Proof.
  intros Hfs. induction folders as [|g folders IH]; intros c c' Hc Hok; [done|].
  cbn [process_folders].
  assert (outcome_rel same_but_entries
            (process_folder fs c g) (process_folder fs' c' g)) as Hg.
  { unfold process_folder. specialize (Hfs g).
    destruct (fs g) as [files|], (fs' g) as [files'|]; try done.
    apply aggregate_permutation.
    - by apply folder_results_permutation.
    - by apply register_folder_rel.
    - done. }
  destruct (process_folder fs c g) as [c1|] eqn:H1,
    (process_folder fs' c' g) as [c1'|]; simpl in Hg; try done.
  apply IH; [done|]. by eapply process_folder_ok.
Qed.

Lemma process_folders_perm_eq fs fs' folders :
  listing_perm fs fs' →
  (∀ g files, fs g = Some files → collision_free (folder_results g files)) →
  ∀ c, summaries_ok (daily_summary c) →
  process_folders fs c folders = process_folders fs' c folders.
Proof.
  intros Hfs Hfree. induction folders as [|g folders IH]; intros c Hok; [done|].
  cbn [process_folders].
  assert (process_folder fs c g = process_folder fs' c g) as Hg.
  { unfold process_folder. specialize (Hfs g). specialize (Hfree g).
    destruct (fs g) as [files|], (fs' g) as [files'|]; try done.
    apply aggregate_permutation_eq.
    - done.
    - by apply folder_results_permutation.
    - by apply Hfree. }
  rewrite <- Hg. destruct (process_folder fs c g) as [c1|] eqn:H1; [|done].
  apply IH. by eapply process_folder_ok.
Qed.

(** X13. The order in which the files of a folder are listed does not
    show in the metadata, the daily summary and the set of variables of
    the returned catalog; when no two files of a folder hold a record for
    the same date it does not show at all. *)
Theorem listing_order_independent (to_list : gset string → list string)
    (now base : string) (fs fs' : listing) :
  listing_perm fs fs' →
  outcome_rel
    (λ out out',
       out_metadata out = out_metadata out' ∧
       out_daily_summary out = out_daily_summary out' ∧
       dom (out_variables out) = dom (out_variables out'))
    (create_daily_catalog to_list now base fs)
    (create_daily_catalog to_list now base fs') ∧
  ((∀ g files, fs g = Some files → collision_free (folder_results g files)) →
   create_daily_catalog to_list now base fs =
   create_daily_catalog to_list now base fs').
Proof.
  intros Hfs. split.
  - pose proof (process_folders_perm fs fs' var_folders Hfs
                  (new_catalog now base) (new_catalog now base)
                  (same_but_entries_refl _) summaries_ok_empty) as Hrel.
    unfold create_daily_catalog.
    destruct (process_folders fs _ _) as [c|], (process_folders fs' _ _) as [c'|];
      simpl in *; try done.
    destruct Hrel as (Hm & Hd & Hs). unfold finalize.
    cbn [out_metadata out_daily_summary out_variables].
    by rewrite Hm, Hs, Hd.
  - intros Hfree. unfold create_daily_catalog.
    by rewrite (process_folders_perm_eq fs fs' var_folders Hfs Hfree
                  (new_catalog now base) summaries_ok_empty).
Qed.

Lemma listing_perm_two_files : listing_perm two_files two_files_swapped.
Proof.
  intros g. unfold two_files, two_files_swapped.
  destruct (decide (g = "air")); [apply perm_swap|].
  by destruct (two_folders g).
Qed.

Lemma listing_order_independent_witness :
  outcome_rel
    (λ out out',
       out_metadata out = out_metadata out' ∧
       out_daily_summary out = out_daily_summary out' ∧
       dom (out_variables out) = dom (out_variables out'))
    (create_daily_catalog elements "2024-01-01T00:00:00" "/data" two_files)
    (create_daily_catalog elements "2024-01-01T00:00:00" "/data"
       two_files_swapped) ∧
  ((∀ g files, two_files g = Some files →
      collision_free (folder_results g files)) →
   create_daily_catalog elements "2024-01-01T00:00:00" "/data" two_files =
   create_daily_catalog elements "2024-01-01T00:00:00" "/data"
     two_files_swapped).
Proof.
  apply (listing_order_independent elements "2024-01-01T00:00:00" "/data"
           two_files two_files_swapped).
  exact listing_perm_two_files.
Defined.
